(** * Controllers of the video-sharing backend, shallowly embedded.

    The MongoDB collections are modelled as lists in their natural order
    (so that [findOne] returns the first matching document), the request
    handlers as computations in a state-and-exception monad over the whole
    database: a thrown [ApiError] aborts the handler but keeps every write
    performed before it, as the non-transactional JavaScript code does.
    Calls to the media store (Cloudinary) are recorded in a log held by the
    state. *)

From Stdlib Require Import String List Bool Arith Lia Permutation.
Import ListNotations.
Open Scope string_scope.
Open Scope list_scope.
Open Scope nat_scope.

(** ** Data model *)

Definition ObjectId := nat.

(** A route or query parameter as received by a handler: absent (or empty),
    a string accepted by [mongoose.Types.ObjectId.isValid], or any other
    string. *)
Inductive Param : Type :=
| PMissing
| POid (id : ObjectId)
| PBad (s : string).

Definition isValid (p : Param) : bool :=
  match p with POid _ => true | _ => false end.

Record User : Type := mkUser {
  u_id : ObjectId;
  username : string;
  email : string;
  fullName : string;
  avatar : string;
  coverImage : string;
  password : string;
  refreshToken : string
}.

Record Video : Type := mkVideo {
  v_id : ObjectId;
  videoFile : string;
  videoPublicId : option string;
  thumbnail : string;
  thumbnailPublicId : option string;
  title : string;
  description : string;
  duration : nat;
  views : nat;
  isPublished : bool;
  owner : ObjectId
}.

Record Comment : Type := mkComment {
  c_id : ObjectId;
  content : string;
  c_video : ObjectId;
  c_owner : ObjectId
}.

(** [video] and [comment] are optional fields of the Like schema. *)
Record Like : Type := mkLike {
  l_id : ObjectId;
  l_video : option ObjectId;
  l_comment : option ObjectId;
  likedBy : ObjectId
}.

Record Subscription : Type := mkSubscription {
  s_id : ObjectId;
  subscriber : ObjectId;
  channel : ObjectId
}.

(** Answer of [cloudinary.uploader.upload]. *)
Record CloudResp : Type := mkCloudResp {
  url : string;
  public_id : string;
  r_duration : nat
}.

(** Calls made to the media store, in the order they were issued. *)
Inductive MediaEvent : Type :=
| EvUpload (localPath : string) (result : option CloudResp)
| EvDestroy (publicId : string) (resourceType : string).

Record DB : Type := mkDB {
  users : list User;
  videos : list Video;
  comments : list Comment;
  likes : list Like;
  subscriptions : list Subscription;
  next_id : ObjectId;
  media_log : list MediaEvent
}.

Definition set_videos (db : DB) (vs : list Video) : DB :=
  mkDB (users db) vs (comments db) (likes db) (subscriptions db) (next_id db) (media_log db).
Definition set_comments (db : DB) (cs : list Comment) : DB :=
  mkDB (users db) (videos db) cs (likes db) (subscriptions db) (next_id db) (media_log db).
Definition set_likes (db : DB) (ls : list Like) : DB :=
  mkDB (users db) (videos db) (comments db) ls (subscriptions db) (next_id db) (media_log db).
Definition set_subscriptions (db : DB) (ss : list Subscription) : DB :=
  mkDB (users db) (videos db) (comments db) (likes db) ss (next_id db) (media_log db).
Definition bump_id (db : DB) : DB :=
  mkDB (users db) (videos db) (comments db) (likes db) (subscriptions db) (S (next_id db)) (media_log db).
Definition log_media (db : DB) (e : MediaEvent) : DB :=
  mkDB (users db) (videos db) (comments db) (likes db) (subscriptions db) (next_id db) (media_log db ++ [e]).

(** ** The handler monad: state plus [throw new ApiError(code, msg)] *)

Inductive Outcome (A : Type) : Type :=
| Ok (a : A)
| Throw (code : nat) (msg : string).
Arguments Ok {A} a.
Arguments Throw {A} code msg.

Definition M (A : Type) : Type := DB -> Outcome A * DB.

Definition ret {A} (a : A) : M A := fun db => (Ok a, db).

Definition bind {A B} (m : M A) (k : A -> M B) : M B := fun db =>
  match m db with
  | (Ok a, db') => k a db'
  | (Throw c s, db') => (Throw c s, db')
  end.

Definition throw {A} (code : nat) (msg : string) : M A := fun db => (Throw code msg, db).

Definition read {A} (f : DB -> A) : M A := fun db => (Ok (f db), db).

Definition modify (f : DB -> DB) : M unit := fun db => (Ok tt, f db).

Notation "x <- m ;; k" := (bind m (fun x => k))
  (at level 61, m at next level, right associativity).
Notation "m ;; k" := (bind m (fun _ => k))
  (at level 61, right associativity).

(** [new ApiResponse(statusCode, data, message)] *)
Record ApiResponse (T : Type) : Type := mkResponse {
  statusCode : nat;
  data : T;
  message : string
}.
Arguments mkResponse {T} statusCode data message.
Arguments statusCode {T} _.
Arguments data {T} _.
Arguments message {T} _.

(** ** Collection primitives *)

Definition opt_eqb (o : option ObjectId) (n : ObjectId) : bool :=
  match o with Some m => m =? n | None => false end.

(** [deleteOne]: removes the first matching document. *)
Fixpoint remove_first {A} (p : A -> bool) (l : list A) : list A :=
  match l with
  | [] => []
  | x :: r => if p x then r else x :: remove_first p r
  end.

Definition Video_findById (id : ObjectId) : M (option Video) :=
  read (fun db => find (fun v => v_id v =? id) (videos db)).

Definition Comment_findById (id : ObjectId) : M (option Comment) :=
  read (fun db => find (fun c => c_id c =? id) (comments db)).

Definition User_findById (id : ObjectId) : M (option User) :=
  read (fun db => find (fun u => u_id u =? id) (users db)).

Definition Like_findOne (q : Like -> bool) : M (option Like) :=
  read (fun db => find q (likes db)).

Definition Like_deleteOne_byId (id : ObjectId) : M unit :=
  modify (fun db => set_likes db (remove_first (fun l => l_id l =? id) (likes db))).

(** [Like.deleteMany(q)], answering [deletedCount]. *)
Definition Like_deleteMany (q : Like -> bool) : M nat := fun db =>
  (Ok (length (filter q (likes db))),
   set_likes db (filter (fun l => negb (q l)) (likes db))).

Definition Comment_deleteMany (q : Comment -> bool) : M nat := fun db =>
  (Ok (length (filter q (comments db))),
   set_comments db (filter (fun c => negb (q c)) (comments db))).

(** [Video.deleteOne({_id})], answering [deletedCount]. *)
Definition Video_deleteOne (id : ObjectId) : M nat := fun db =>
  let p := fun v => v_id v =? id in
  (Ok (if existsb p (videos db) then 1 else 0),
   set_videos db (remove_first p (videos db))).

(** [Like.create]: a fresh [_id], appended to the collection. *)
Definition Like_create (video comment : option ObjectId) (liker : ObjectId) : M Like := fun db =>
  let l := mkLike (next_id db) video comment liker in
  (Ok l, bump_id (set_likes db (likes db ++ [l]))).

(** [if (!x) throw 400; if (!isValid(x)) throw 400] *)
Definition requireId (p : Param) (missing invalid : string) : M ObjectId :=
  match p with
  | PMissing => throw 400 missing
  | PBad _ => throw 400 invalid
  | POid id => ret id
  end.

(** ** Like controller *)

(** [toggleVideoLike]; [user] is [req.user?._id]. *)
Definition toggleVideoLike (videoId : Param) (user : option ObjectId) : M (ApiResponse bool) :=
  vid <- requireId videoId "Video ID is required" "Invalid Video ID provided" ;;
  video <- Video_findById vid ;;
  match video with
  | None => throw 404 "Video not found"
  | Some _ =>
    match user with
    | None => throw 401 "User not authenticated to like videos"
    | Some uid =>
      existingLike <- Like_findOne (fun l => opt_eqb (l_video l) vid && (likedBy l =? uid)) ;;
      match existingLike with
      | Some l =>
        Like_deleteOne_byId (l_id l) ;;
        ret (mkResponse 200 false "Video unliked successfully")
      | None =>
        Like_create (Some vid) None uid ;;
        ret (mkResponse 200 true "Video liked successfully")
      end
    end
  end.

(** [toggleCommentLike]: the new Like also carries [video: comment.video]. *)
Definition toggleCommentLike (commentId : Param) (user : option ObjectId) : M (ApiResponse bool) :=
  cid <- requireId commentId "Comment ID is required" "Invalid comment ID provided" ;;
  comment <- Comment_findById cid ;;
  match comment with
  | None => throw 404 "Video not found"
  | Some c =>
    match user with
    | None => throw 401 "User not authenticated to like videos"
    | Some uid =>
      existingLike <- Like_findOne (fun l => opt_eqb (l_comment l) cid && (likedBy l =? uid)) ;;
      match existingLike with
      | Some l =>
        Like_deleteOne_byId (l_id l) ;;
        ret (mkResponse 200 false "comment unliked successfully")
      | None =>
        Like_create (Some (c_video c)) (Some cid) uid ;;
        ret (mkResponse 200 true "comment liked successfully")
      end
    end
  end.

(** Owner (or subscriber) summary: [{_id, username, fullName, avatar}]. *)
Record OwnerSummary : Type := mkOwnerSummary {
  o_id : ObjectId;
  o_username : string;
  o_fullName : string;
  o_avatar : string
}.

Definition summarize (u : User) : OwnerSummary :=
  mkOwnerSummary (u_id u) (username u) (fullName u) (avatar u).

(** Document produced by the [getLikedVideos] pipeline (timestamps are not
    modelled). *)
Record LikedVideo : Type := mkLikedVideo {
  lv_id : ObjectId;
  lv_videoFile : string;
  lv_thumbnail : string;
  lv_title : string;
  lv_description : string;
  lv_duration : nat;
  lv_views : nat;
  lv_isPublished : bool;
  lv_owner : OwnerSummary
}.

(** [$lookup] followed by [$unwind] (no [preserveNullAndEmptyArrays]): one
    output per matching foreign document, none when there is no match. *)
Definition lookup_unwind {A B} (foreign : list B) (matches : A -> B -> bool) (xs : list A)
  : list (A * B) :=
  flat_map (fun a => map (fun b => (a, b)) (filter (matches a) foreign)) xs.

(** The aggregation of [getLikedVideos], stages 1 to 7. *)
Definition likedVideosPipeline (uid : ObjectId) (db : DB) : list LikedVideo :=
  let stage1 := filter (fun l => (likedBy l =? uid) &&
                                 match l_video l with Some _ => true | None => false end)
                       (likes db) in
  let stage3 := lookup_unwind (videos db) (fun l v => opt_eqb (l_video l) (v_id v)) stage1 in
  let stage4 := map snd stage3 in
  let stage6 := lookup_unwind (users db) (fun v u => u_id u =? owner v) stage4 in
  map (fun '(v, u) =>
         mkLikedVideo (v_id v) (videoFile v) (thumbnail v) (title v) (description v)
                      (duration v) (views v) (isPublished v) (summarize u))
      stage6.

(** [getLikedVideos]; [userId] is [req.user?._id], always a valid ObjectId
    when present. *)
Definition getLikedVideos (user : option ObjectId) : M (ApiResponse (list LikedVideo)) :=
  match user with
  | None => throw 401 "User not authenticated or invalid user ID"
  | Some uid =>
    likedVideos <- read (likedVideosPipeline uid) ;;
    if List.length likedVideos =? 0
    then ret (mkResponse 200 [] "User hasn't liked any videos")
    else ret (mkResponse 200 likedVideos "Liked videos fetched successfully")
  end.

(** ** Video controller *)

(** [video.owner.toString() !== req.user?._id.toString()] is false exactly
    when the caller is present and is the owner. *)
Definition is_owner (o : ObjectId) (caller : option ObjectId) : bool :=
  match caller with Some c => o =? c | None => false end.

(** JavaScript truthiness of an optional string field. *)
Definition truthy (o : option string) : bool :=
  match o with Some s => negb (String.eqb s "") | None => false end.

(** [findByIdAndUpdate(id, update, {new: true})]: updates the first
    document with that id and answers the updated document. *)
Fixpoint update_first {A} (p : A -> bool) (f : A -> A) (l : list A) : list A :=
  match l with
  | [] => []
  | x :: r => if p x then f x :: r else x :: update_first p f r
  end.

Definition Video_findByIdAndUpdate (id : ObjectId) (f : Video -> Video) : M (option Video) :=
  fun db =>
    let p := fun v => v_id v =? id in
    match find p (videos db) with
    | None => (Ok None, db)
    | Some v => (Ok (Some (f v)), set_videos db (update_first p f (videos db)))
    end.

Definition set_views (n : nat) (v : Video) : Video :=
  mkVideo (v_id v) (videoFile v) (videoPublicId v) (thumbnail v) (thumbnailPublicId v)
          (title v) (description v) (duration v) n (isPublished v) (owner v).

Definition set_isPublished (b : bool) (v : Video) : Video :=
  mkVideo (v_id v) (videoFile v) (videoPublicId v) (thumbnail v) (thumbnailPublicId v)
          (title v) (description v) (duration v) (views v) b (owner v).

(** Document produced by the [getVideoById] pipeline. *)
Record VideoDetail : Type := mkVideoDetail {
  d_id : ObjectId;
  d_videoFile : string;
  d_thumbnail : string;
  d_title : string;
  d_description : string;
  d_duration : nat;
  d_views : nat;
  d_isPublished : bool;
  d_owner : OwnerSummary
}.

Definition detail (v : Video) (u : User) : VideoDetail :=
  mkVideoDetail (v_id v) (videoFile v) (thumbnail v) (title v) (description v)
                (duration v) (views v) (isPublished v) (summarize u).

(** [foundVideo.views = updatedVideo.views] *)
Definition with_views (n : nat) (d : VideoDetail) : VideoDetail :=
  mkVideoDetail (d_id d) (d_videoFile d) (d_thumbnail d) (d_title d) (d_description d)
                (d_duration d) n (d_isPublished d) (d_owner d).

(** [$match _id], [$lookup] of the owner, [$unwind], [$project]. *)
Definition videoByIdPipeline (vid : ObjectId) (db : DB) : list VideoDetail :=
  map (fun '(v, u) => detail v u)
      (lookup_unwind (users db) (fun v u => u_id u =? owner v)
                     (filter (fun v => v_id v =? vid) (videos db))).

Definition getVideoById (videoId : Param) : M (ApiResponse VideoDetail) :=
  vid <- requireId videoId "Video ID is required" "Invalid Video ID" ;;
  video <- read (videoByIdPipeline vid) ;;
  match video with
  | [] => throw 404 "Video not found"
  | foundVideo :: _ =>
    updatedVideo <- Video_findByIdAndUpdate vid (fun v => set_views (views v + 1) v) ;;
    match updatedVideo with
    (* [updatedVideo.views] on [null] raises a TypeError *)
    | None => throw 500 "Cannot read properties of null (reading 'views')"
    | Some uv => ret (mkResponse 200 (with_views (views uv) foundVideo) "Video fetched successfully")
    end
  end.

(** [deleteFromCloudinary(publicId, resourceType)]: best effort, its answer
    is ignored by the callers. *)
Definition deleteFromCloudinary (publicId : string) (resourceType : string) : M unit :=
  modify (fun db => log_media db (EvDestroy publicId resourceType)).

Definition Comment_deleteMany_byVideo (vid : ObjectId) : M nat :=
  Comment_deleteMany (fun c => c_video c =? vid).

Definition deleteVideo (videoId : Param) (caller : option ObjectId) : M (ApiResponse nat) :=
  vid <- requireId videoId "Video ID is required" "Invalid Video ID" ;;
  videoToDelete <- Video_findById vid ;;
  match videoToDelete with
  | None => throw 404 "Video not found"
  | Some v =>
    if negb (is_owner (owner v) caller)
    then throw 403 "You are not authorized to delete this video"
    else
      (if truthy (videoPublicId v)
       then deleteFromCloudinary (match videoPublicId v with Some p => p | None => "" end) "video"
       else ret tt) ;;
      (if truthy (thumbnailPublicId v)
       then deleteFromCloudinary (match thumbnailPublicId v with Some p => p | None => "" end) "image"
       else ret tt) ;;
      deletedLikes <- Like_deleteMany (fun l => opt_eqb (l_video l) vid) ;;
      deletedComments <- Comment_deleteMany_byVideo vid ;;
      deletedCount <- Video_deleteOne vid ;;
      if deletedCount =? 0
      then throw 500 "Failed to delete video from database"
      else ret (mkResponse 200 deletedCount "Video deleted successfully")
  end.

Definition togglePublishStatus (videoId : Param) (caller : option ObjectId) : M (ApiResponse bool) :=
  vid <- requireId videoId "Video ID is required" "Invalid Video ID" ;;
  video <- Video_findById vid ;;
  match video with
  | None => throw 404 "Video not found"
  | Some v =>
    if negb (is_owner (owner v) caller)
    then throw 403 "You are not authorized to toggle video publish status."
    else
      updatedVideo <- Video_findByIdAndUpdate vid (set_isPublished (negb (isPublished v))) ;;
      match updatedVideo with
      | None => throw 500 "Something went wrong while toggling video publish status."
      | Some uv => ret (mkResponse 200 (isPublished uv) "Video publish status toggled successfully")
      end
  end.

(** [updateFields]: the fields given to [$set]; [None] means the key is
    absent from the object. *)
Record UpdateFields : Type := mkUpdateFields {
  uf_title : option string;
  uf_description : option string;
  uf_videoFile : option string;
  uf_videoPublicId : option string;
  uf_duration : option nat;
  uf_thumbnail : option string;
  uf_thumbnailPublicId : option string
}.

Definition or_keep {A} (o : option A) (a : A) : A :=
  match o with Some x => x | None => a end.

(** [{ $set: updateFields }] *)
Definition apply_update (uf : UpdateFields) (v : Video) : Video :=
  mkVideo (v_id v)
          (or_keep (uf_videoFile uf) (videoFile v))
          (match uf_videoPublicId uf with Some p => Some p | None => videoPublicId v end)
          (or_keep (uf_thumbnail uf) (thumbnail v))
          (match uf_thumbnailPublicId uf with Some p => Some p | None => thumbnailPublicId v end)
          (or_keep (uf_title uf) (title v))
          (or_keep (uf_description uf) (description v))
          (or_keep (uf_duration uf) (duration v))
          (views v) (isPublished v) (owner v).

Definition with_video_asset (r : CloudResp) (uf : UpdateFields) : UpdateFields :=
  mkUpdateFields (uf_title uf) (uf_description uf) (Some (url r)) (Some (public_id r))
                 (Some (r_duration r)) (uf_thumbnail uf) (uf_thumbnailPublicId uf).

Definition with_thumbnail_asset (r : CloudResp) (uf : UpdateFields) : UpdateFields :=
  mkUpdateFields (uf_title uf) (uf_description uf) (uf_videoFile uf) (uf_videoPublicId uf)
                 (uf_duration uf) (Some (url r)) (Some (public_id r)).

(** [!r || !r.url || !r.public_id] is false *)
Definition upload_complete (r : CloudResp) : bool :=
  negb (String.eqb (url r) "") && negb (String.eqb (public_id r) "").

Definition or_empty (o : option string) : string :=
  match o with Some s => s | None => "" end.

(** [String.prototype.trim] on ASCII text. *)
Definition is_ws (a : Ascii.ascii) : bool :=
  let n := Ascii.nat_of_ascii a in (n =? 32) || ((9 <=? n) && (n <=? 13)).

Fixpoint drop_ws (l : list Ascii.ascii) : list Ascii.ascii :=
  match l with
  | [] => []
  | a :: r => if is_ws a then drop_ws r else l
  end.

Definition trim (s : string) : string :=
  string_of_list_ascii (rev (drop_ws (rev (drop_ws (list_ascii_of_string s))))).

(** [!field || field.trim() === ""] *)
Definition blank (o : option string) : bool :=
  match o with Some s => String.eqb (trim s) "" | None => true end.

Section MediaStore.

(** The media store's answer to an upload of a local file: [None] is the
    [null] that [uploadOnCloudinary] answers when the upload fails (a
    rejected promise is handled the same way by the callers below: the
    request fails before anything else happens). *)
Variable uploadOnCloudinary : string -> option CloudResp.

Definition upload (localPath : string) : M (option CloudResp) := fun db =>
  let r := uploadOnCloudinary localPath in
  (Ok r, log_media db (EvUpload localPath r)).

(** Step 5 of [updateVideo]: replacement of the video file. *)
Definition updateVideoFile (v : Video) (videoFileLocalPath : option string) (uf : UpdateFields)
  : M UpdateFields :=
  if truthy videoFileLocalPath then
    newVideoFile <- upload (or_empty videoFileLocalPath) ;;
    match newVideoFile with
    | Some r =>
      if upload_complete r then
        (if truthy (videoPublicId v)
         then deleteFromCloudinary (or_empty (videoPublicId v)) "video"
         else ret tt) ;;
        ret (with_video_asset r uf)
      else throw 500 "Error while uploading new video file to Cloudinary (no URL or public_id)"
    | None => throw 500 "Error while uploading new video file to Cloudinary (no URL or public_id)"
    end
  else ret uf.

(** Step 6 of [updateVideo]: replacement of the thumbnail. *)
Definition updateThumbnail (v : Video) (thumbnailLocalPath : option string) (uf : UpdateFields)
  : M UpdateFields :=
  if truthy thumbnailLocalPath then
    newThumbnail <- upload (or_empty thumbnailLocalPath) ;;
    match newThumbnail with
    | Some r =>
      if upload_complete r then
        (if truthy (thumbnailPublicId v)
         then deleteFromCloudinary (or_empty (thumbnailPublicId v)) "image"
         else ret tt) ;;
        ret (with_thumbnail_asset r uf)
      else throw 500 "Error while uploading new thumbnail to Cloudinary"
    | None => throw 500 "Error while uploading new thumbnail to Cloudinary"
    end
  else ret uf.

Definition updateVideo (videoId : Param) (title_ description_ : option string)
    (videoFileLocalPath thumbnailLocalPath : option string) (caller : option ObjectId)
  : M (ApiResponse Video) :=
  vid <- requireId videoId "Video ID is required" "Invalid Video ID" ;;
  if negb (truthy title_ || truthy description_ || truthy videoFileLocalPath
           || truthy thumbnailLocalPath)
  then throw 400 "At least one field (title, description, video, or thumbnail) is required to update."
  else
    video <- Video_findById vid ;;
    match video with
    | None => throw 404 "Video not found"
    | Some v =>
      if negb (is_owner (owner v) caller)
      then throw 403 "You are not authorized to update this video"
      else
        let uf0 := mkUpdateFields (if truthy title_ then title_ else None)
                                  (if truthy description_ then description_ else None)
                                  None None None None None in
        uf1 <- updateVideoFile v videoFileLocalPath uf0 ;;
        uf2 <- updateThumbnail v thumbnailLocalPath uf1 ;;
        updatedVideo <- Video_findByIdAndUpdate vid (apply_update uf2) ;;
        match updatedVideo with
        | None => throw 500 "Something went wrong while updating the video. Video might have been deleted."
        | Some uv => ret (mkResponse 200 uv "Video updated successfully")
        end
    end.

(** [publishAVideo]; the route is behind the authentication middleware, so
    [req.user._id] is the caller. *)
Definition publishAVideo (title_ description_ : option string)
    (videoFileLocalPath thumbnailLocalPath : option string) (caller : ObjectId)
  : M (ApiResponse Video) :=
  if blank title_ || blank description_
  then throw 400 "Title and description are required"
  else if negb (truthy videoFileLocalPath) then throw 400 "Video file is required"
  else if negb (truthy thumbnailLocalPath) then throw 400 "Thumbnail is required"
  else
    videoFile_ <- upload (or_empty videoFileLocalPath) ;;
    thumbnail_ <- upload (or_empty thumbnailLocalPath) ;;
    match videoFile_, thumbnail_ with
    | None, _ => throw 500 "Failed to upload video file to Cloudinary"
    | Some _, None => throw 500 "Failed to upload thumbnail to Cloudinary"
    | Some vf, Some th =>
      fun db =>
        let video := mkVideo (next_id db) (url vf) (Some (public_id vf)) (url th)
                             (Some (public_id th)) (or_empty title_) (or_empty description_)
                             (r_duration vf) 0 true caller in
        (Ok (mkResponse 200 video "Video published successfully!!"),
         bump_id (set_videos db (videos db ++ [video])))
    end.

End MediaStore.

(** ** Comment controller (mutating handlers) *)

Definition addComment (content_ : option string) (videoId : Param) (user : option ObjectId)
  : M (ApiResponse Comment) :=
  if blank content_ then throw 400 "Comment content is required" else
  vid <- requireId videoId "Video ID is required" "Invalid Video ID" ;;
  match user with
  | None => throw 401 "User not authenticated to like videos"
  | Some uid =>
    video <- Video_findById vid ;;
    match video with
    | None => throw 404 "Video not found"
    | Some _ =>
      fun db =>
        let c := mkComment (next_id db) (trim (or_empty content_)) vid uid in
        (Ok (mkResponse 201 c "Comment added successfully"),
         bump_id (set_comments db (comments db ++ [c])))
    end
  end.

Definition set_content (s : string) (c : Comment) : Comment :=
  mkComment (c_id c) s (c_video c) (c_owner c).

Definition updateComment (content_ : option string) (commentId : Param) (user : option ObjectId)
  : M (ApiResponse Comment) :=
  if blank content_ then throw 400 "Comment content is required" else
  cid <- requireId commentId "Comment ID is required in parameters" "Invalid Comment ID provided" ;;
  match user with
  | None => throw 401 "User not authenticated to update comments"
  | Some uid =>
    commentToUpdate <- Comment_findById cid ;;
    match commentToUpdate with
    | None => throw 404 "Comment not found"
    | Some c =>
      if negb (c_owner c =? uid)
      then throw 403 "You are not authorized to update this comment"
      else
        (* [$set: {content}]: the untrimmed request value *)
        updatedComment <- (fun db =>
          let p := fun c' => c_id c' =? cid in
          match find p (comments db) with
          | None => (Ok None, db)
          | Some c' => (Ok (Some (set_content (or_empty content_) c')),
                        set_comments db (update_first p (set_content (or_empty content_)) (comments db)))
          end) ;;
        match updatedComment with
        | None => throw 500 "Something went wrong while updating the comment"
        | Some c' => ret (mkResponse 200 c' "Comment updated successfully")
        end
    end
  end.

Definition deleteComment (commentId : Param) (user : option ObjectId) : M (ApiResponse unit) :=
  cid <- requireId commentId "Comment ID is required in parameters" "Invalid Comment ID provided" ;;
  match user with
  | None => throw 401 "User not authenticated to delete comments"
  | Some uid =>
    commentToDelete <- Comment_findById cid ;;
    match commentToDelete with
    | None => throw 404 "Comment not found"
    | Some c =>
      if negb (c_owner c =? uid)
      then throw 403 "You are not authorized to delete this comment"
      else
        deletedLikes <- Like_deleteMany (fun l => opt_eqb (l_comment l) cid) ;;
        result <- (fun db =>
           let p := fun c' => c_id c' =? cid in
           (Ok (if existsb p (comments db) then 1 else 0),
            set_comments db (remove_first p (comments db)))) ;;
        if result =? 0
        then throw 500 "Something went wrong while deleting the comment, or comment was deleted concurrently."
        else ret (mkResponse 200 tt "Comment deleted successfully")
    end
  end.

(** ** Subscription controller *)

Definition Subscription_create (sub chan : ObjectId) : M Subscription := fun db =>
  let s := mkSubscription (next_id db) sub chan in
  (Ok s, bump_id (set_subscriptions db (subscriptions db ++ [s]))).

(** [mongoose.Types.ObjectId.isValid] on a route string, together with the
    cast that [findById] and the query filters apply to it: exactly 24
    hexadecimal digits, in either case (bson 6; the 12-character string
    form accepted by older bson releases is not modelled). *)
Definition hex_value (a : Ascii.ascii) : option nat :=
  let n := Ascii.nat_of_ascii a in
  if (48 <=? n) && (n <=? 57) then Some (n - 48)
  else if (97 <=? n) && (n <=? 102) then Some (n - 87)
  else if (65 <=? n) && (n <=? 70) then Some (n - 55)
  else None.

Fixpoint hex_digits (s : string) (acc : nat) : option nat :=
  match s with
  | EmptyString => Some acc
  | String a r =>
    match hex_value a with
    | Some d => hex_digits r (acc * 16 + d)
    | None => None
    end
  end.

Definition parse_oid (s : string) : option ObjectId :=
  if String.length s =? 24 then hex_digits s 0 else None.

(** [ObjectId.prototype.toString()]: 24 lowercase hexadecimal digits. *)
Definition hex_char (d : nat) : Ascii.ascii :=
  Ascii.ascii_of_nat (if d <? 10 then 48 + d else 87 + d).

Fixpoint hex_string (k n : nat) : string :=
  match k with
  | 0 => EmptyString
  | S k' => hex_string k' (n / 16) ++ String (hex_char (n mod 16)) EmptyString
  end.

Definition oid_toString (id : ObjectId) : string := hex_string 24 id.

(** [toggleSubscription]; [channelId] is the raw route string, echoed in
    the answer's data [{isSubscribed, channelId}]; the self-subscription
    check compares [subscriberId.toString()] with that string. *)
Definition toggleSubscription (channelId : option string) (user : option ObjectId)
  : M (ApiResponse (bool * string)) :=
  match user with
  | None => throw 401 "User not authenticated. Please log in."
  | Some subscriberId =>
    match channelId with
    | None => throw 400 "Invalid channel ID provided."
    | Some raw =>
      match parse_oid raw with
      | None => throw 400 "Invalid channel ID provided."
      | Some chan =>
        channelExists <- User_findById chan ;;
        match channelExists with
        | None => throw 404 "Channel not found."
        | Some _ =>
          if String.eqb (oid_toString subscriberId) raw
          then throw 400 "You cannot subscribe to your own channel."
          else
            existingSubscription <- read (fun db =>
              find (fun s => (subscriber s =? subscriberId) && (channel s =? chan)) (subscriptions db)) ;;
            match existingSubscription with
            | Some s =>
              modify (fun db => set_subscriptions db
                        (remove_first (fun s' => s_id s' =? s_id s) (subscriptions db))) ;;
              ret (mkResponse 200 (false, raw) "Unsubscribed successfully.")
            | None =>
              Subscription_create subscriberId chan ;;
              ret (mkResponse 200 (true, raw) "Subscribed successfully.")
            end
        end
      end
    end
  end.

(** A projected JSON value: an ObjectId or a string. *)
Inductive JVal : Type :=
| JOid (id : ObjectId)
| JStr (s : string).

(** Field path ["$subscriberDetails.<f>"] on a User document. *)
Definition user_path (u : User) (f : string) : option JVal :=
  if String.eqb f "_id" then Some (JOid (u_id u))
  else if String.eqb f "username" then Some (JStr (username u))
  else if String.eqb f "email" then Some (JStr (email u))
  else if String.eqb f "fullName" then Some (JStr (fullName u))
  else if String.eqb f "avatar" then Some (JStr (avatar u))
  else if String.eqb f "coverImage" then Some (JStr (coverImage u))
  else if String.eqb f "password" then Some (JStr (password u))
  else if String.eqb f "refreshToken" then Some (JStr (refreshToken u))
  else None.

(** The [subscriber] sub-document of the [$project] stage of
    [getUserChannelSubscribers], as (output key, source field) pairs. *)
Definition subscriberProjection : list (string * string) :=
  [("_id", "_id"); ("username", "username"); ("email", "email");
   ("avatar", "avatar"); ("fullName", "fullName")].

(** Evaluating a projection: missing source fields are omitted. *)
Definition project (spec : list (string * string)) (u : User) : list (string * JVal) :=
  flat_map (fun '(k, f) => match user_path u f with Some x => [(k, x)] | None => [] end) spec.

Definition subscribersPipeline (chan : ObjectId) (db : DB) : list (list (string * JVal)) :=
  map (fun '(_, u) => project subscriberProjection u)
      (lookup_unwind (users db) (fun s u => u_id u =? subscriber s)
                     (filter (fun s => channel s =? chan) (subscriptions db))).

Definition getUserChannelSubscribers (channelId : Param)
  : M (ApiResponse (list (list (string * JVal)))) :=
  match channelId with
  | PMissing | PBad _ => throw 400 "Invalid channel ID provided."
  | POid chan =>
    subscribers <- read (subscribersPipeline chan) ;;
    if List.length subscribers =? 0
    then ret (mkResponse 200 [] "No subscribers found for this channel.")
    else ret (mkResponse 200 subscribers "Subscribers fetched successfully.")
  end.

(** [getSubscribedChannels]: the [channel] sub-document of its [$project]
    stage, as (output key, source field) pairs. *)
Definition channelProjection : list (string * string) :=
  [("_id", "_id"); ("username", "username"); ("fullName", "fullName"); ("avatar", "avatar")].

Definition subscribedChannelsPipeline (sub : ObjectId) (db : DB) : list (list (string * JVal)) :=
  map (fun '(_, u) => project channelProjection u)
      (lookup_unwind (users db) (fun s u => u_id u =? channel s)
                     (filter (fun s => subscriber s =? sub) (subscriptions db))).

Definition getSubscribedChannels (subscriberId : Param)
  : M (ApiResponse (list (list (string * JVal)))) :=
  match subscriberId with
  | PMissing | PBad _ => throw 400 "Invalid subscriber ID provided."
  | POid sub =>
    subscribedChannels <- read (subscribedChannelsPipeline sub) ;;
    if List.length subscribedChannels =? 0
    then ret (mkResponse 200 [] "This user has not subscribed to any channels.")
    else ret (mkResponse 200 subscribedChannels "Subscribed channels fetched successfully.")
  end.

(** The subscription of [sub] to the channel [chan]. *)
Definition is_subscription (sub chan : ObjectId) (s : Subscription) : bool :=
  (subscriber s =? sub) && (channel s =? chan).

(** ** Video listing ([getAllVideos]) *)

(** [$lookup] followed by [$unwind] with [preserveNullAndEmptyArrays: true]:
    a document without a match is kept, without the joined field. *)
Definition lookup_unwind_preserve {A B} (foreign : list B) (matches : A -> B -> bool) (xs : list A)
  : list (A * option B) :=
  flat_map (fun a => match filter (matches a) foreign with
                     | [] => [(a, None)]
                     | bs => map (fun b => (a, Some b)) bs
                     end) xs.

(** Document produced by the [getAllVideos] pipeline (timestamps are not
    modelled); [vl_owner] is absent when the owner has no User record. *)
Record VideoListing : Type := mkVideoListing {
  vl_id : ObjectId;
  vl_title : string;
  vl_description : string;
  vl_videoFile : string;
  vl_thumbnail : string;
  vl_duration : nat;
  vl_views : nat;
  vl_owner : option OwnerSummary
}.

(** An error raised by MongoDB itself while running an aggregation (not an
    [ApiError]); it reaches the application's error handler. *)
Definition aggregateFailed {A} : M A := throw 500 "MongoServerError".

Section VideoListing.

(** [{ $regex: query, $options: "i" }]: MongoDB compiles the pattern,
    [None] when it is not a valid regular expression (the aggregation then
    fails), otherwise the case-insensitive matcher. *)
Variable compileRegex : string -> option (string -> bool).

(** [$sort] on a field, ascending or descending. The order of documents
    with equal keys and the [createdAt] timestamps are outside the model. *)
Variable sortStage : string -> bool -> list Video -> list Video.

(** Stages 2 to 6 of [getAllVideos], once the parameters are known. *)
Definition allVideosPipeline (queryMatch : option (string -> bool)) (ownerId : option ObjectId)
    (sortKey : string) (asc : bool) (skip lim : nat) (db : DB) : list VideoListing :=
  let s1 := match queryMatch with
            | Some m => filter (fun v => m (title v) || m (description v)) (videos db)
            | None => videos db
            end in
  let s2 := match ownerId with
            | Some u => filter (fun v => owner v =? u) s1
            | None => s1
            end in
  let s3 := sortStage sortKey asc s2 in
  let s4 := firstn lim (skipn skip s3) in
  map (fun '(v, o) =>
         mkVideoListing (v_id v) (title v) (description v) (videoFile v) (thumbnail v)
                        (duration v) (views v) (option_map summarize o))
      (lookup_unwind_preserve (users db) (fun v u => u_id u =? owner v) s4).

(** [getAllVideos]; [page] and [limit] are the numeric values of the query
    parameters (absent: 1 and 10). A zero page gives a negative [$skip] and
    a zero limit a [$limit] of 0, both refused by MongoDB. The answer's
    [data] is the [videos] field of [{ videos }]. *)
Definition getAllVideos (page limit : option nat) (query : option string)
    (sortBy sortType : option string) (userId : Param)
  : M (ApiResponse (list VideoListing)) :=
  let p := or_keep page 1 in
  let l := or_keep limit 10 in
  match userId with
  | PBad _ => throw 400 "Invalid userId"
  | _ =>
    let ownerId := match userId with POid u => Some u | _ => None end in
    let '(sortKey, asc) :=
      if truthy sortBy && truthy sortType
      then (or_empty sortBy, String.eqb (or_empty sortType) "asc")
      else ("createdAt", false) in
    let queryMatch := if truthy query
                      then option_map Some (compileRegex (or_empty query))
                      else Some None in
    match queryMatch with
    | None => aggregateFailed
    | Some qm =>
      if (l =? 0) || (p =? 0) then aggregateFailed
      else
        videos_ <- read (allVideosPipeline qm ownerId sortKey asc ((p - 1) * l) l) ;;
        ret (mkResponse 200 videos_ "Videos fetched successfully")
    end
  end.

End VideoListing.

(** ** Auxiliary views of the state *)

(** Two databases that differ at most in the media log. *)
Definition same_but_media (db db' : DB) : Prop :=
  users db' = users db /\ videos db' = videos db /\ comments db' = comments db /\
  likes db' = likes db /\ subscriptions db' = subscriptions db /\ next_id db' = next_id db.

(** The liked-videos aggregation, one like at a time. *)
Definition liked_of_like (db : DB) (l : Like) : list LikedVideo :=
  map (fun '(v, u) =>
         mkLikedVideo (v_id v) (videoFile v) (thumbnail v) (title v) (description v)
                      (duration v) (views v) (isPublished v) (summarize u))
      (lookup_unwind (users db) (fun v u => u_id u =? owner v)
                     (filter (fun v => opt_eqb (l_video l) (v_id v)) (videos db))).

(** ** Sequential executions *)

(** One request handled to completion (successfully or not). *)
Inductive step : DB -> DB -> Prop :=
| st_toggleVideoLike p u db : step db (snd (toggleVideoLike p u db))
| st_toggleCommentLike p u db : step db (snd (toggleCommentLike p u db))
| st_getLikedVideos u db : step db (snd (getLikedVideos u db))
| st_getVideoById p db : step db (snd (getVideoById p db))
| st_publishAVideo up t d vp tp u db : step db (snd (publishAVideo up t d vp tp u db))
| st_updateVideo up p t d vp tp u db : step db (snd (updateVideo up p t d vp tp u db))
| st_deleteVideo p u db : step db (snd (deleteVideo p u db))
| st_togglePublishStatus p u db : step db (snd (togglePublishStatus p u db))
| st_addComment t p u db : step db (snd (addComment t p u db))
| st_updateComment t p u db : step db (snd (updateComment t p u db))
| st_deleteComment p u db : step db (snd (deleteComment p u db))
| st_toggleSubscription p u db : step db (snd (toggleSubscription p u db))
| st_getUserChannelSubscribers p db : step db (snd (getUserChannelSubscribers p db)).

(** States reachable from a database with no comments and no likes (users,
    videos and subscriptions arbitrary). *)
Inductive reachable : DB -> Prop :=
| reach_init db : comments db = [] -> likes db = [] -> reachable db
| reach_step db db' : reachable db -> step db db' -> reachable db'.

(** Like of a video (not of a comment) by [u] on [v]; like of comment [c] by [u]. *)
Definition is_video_like (v u : ObjectId) (l : Like) : bool :=
  match l_comment l with None => opt_eqb (l_video l) v && (likedBy l =? u) | Some _ => false end.
Definition is_comment_like (c u : ObjectId) (l : Like) : bool :=
  opt_eqb (l_comment l) c && (likedBy l =? u).

(** Like rows associated with video [v]: likes of [v] and likes of its comments. *)
Definition associated_with (db : DB) (v : ObjectId) (l : Like) : bool :=
  opt_eqb (l_video l) v ||
  existsb (fun c => (c_video c =? v) && opt_eqb (l_comment l) (c_id c)) (comments db).

(** The invariant maintained by all handlers. *)
Record Inv (db : DB) : Prop := {
  inv_video_set : forall l, In l (likes db) -> l_video l <> None;
  inv_denorm : forall l c, In l (likes db) -> In c (comments db) ->
                 l_comment l = Some (c_id c) -> l_video l = Some (c_video c);
  inv_no_dangling : forall l x, In l (likes db) -> l_comment l = Some x ->
                      exists c, In c (comments db) /\ c_id c = x;
  inv_comment_fresh : forall c, In c (comments db) -> c_id c < next_id db;
  inv_comment_video : forall c1 c2, In c1 (comments db) -> In c2 (comments db) ->
                        c_id c1 = c_id c2 -> c_video c1 = c_video c2;
  inv_unique_video_like : forall v u,
      List.length (filter (is_video_like v u) (likes db)) <= 1;
  inv_unique_comment_like : forall c u,
      List.length (filter (is_comment_like c u) (likes db)) <= 1
}.

(** ** Properties of media-store traces *)

(** Media-store calls issued by a request that took [db] to [db']. *)
Definition new_events (db db' : DB) : list MediaEvent :=
  skipn (List.length (media_log db)) (media_log db').

(** An upload answer the handlers treat as a failure. *)
Definition upload_failed (o : option CloudResp) : bool :=
  match o with Some r => negb (upload_complete r) | None => true end.

(** Every [destroy] of resource type [kind] in [evs] comes after a
    complete upload of the local file [path] ([seen]: one already came). *)
Fixpoint destroys_after_upload (kind path : string) (seen : bool) (evs : list MediaEvent) : bool :=
  match evs with
  | [] => true
  | EvUpload p (Some r) :: rest =>
      destroys_after_upload kind path ((String.eqb p path && upload_complete r) || seen) rest
  | EvUpload _ None :: rest => destroys_after_upload kind path seen rest
  | EvDestroy _ k :: rest =>
      (negb (String.eqb k kind) || seen) && destroys_after_upload kind path seen rest
  end.

(** ** A small database used in the examples *)

Definition alice : User := mkUser 1 "alice" "alice@example.com" "Alice A" "a.png" "" "hash1" "tok1".
Definition bob : User := mkUser 2 "bob" "bob@example.com" "Bob B" "b.png" "" "hash2" "tok2".
Definition vid10 : Video := mkVideo 10 "v.mp4" (Some "vp10") "t.png" (Some "tp10") "cats" "a cat" 30 5 true 1.
Definition com20 : Comment := mkComment 20 "nice" 10 2.
Definition com21 : Comment := mkComment 21 "again" 10 2.

Definition db0 : DB := mkDB [alice; bob] [vid10] [com20; com21] [] [] 100 [].

(** Bob liked comments 20 and 21 of video 10, and nothing else. *)
Definition db_comment_liked : DB := snd (toggleCommentLike (POid 20) (Some 2) db0).
Definition db_two_comment_likes : DB := snd (toggleCommentLike (POid 21) (Some 2) db_comment_liked).

(** Video 10 is still stored but its owner's User record is gone. *)
Definition db_orphan_video : DB := mkDB [bob] [vid10] [] [] [] 100 [].

(** Bob subscribes to Alice's channel. *)
Definition db_subscribed : DB := snd (toggleSubscription (Some (oid_toString 1)) (Some 2) db0).

(** Carol, whose id 0x1a has a letter among its hexadecimal digits. *)
Definition carol : User := mkUser 26 "carol" "carol@example.com" "Carol C" "c.png" "" "hash3" "tok3".
Definition db_carol : DB := mkDB [alice; bob; carol] [vid10] [] [] [] 100 [].

(** A run from a state with no comments and no likes: Bob comments on
    video 10 (comment 100), then likes his comment. *)
Definition db_init : DB := mkDB [alice; bob] [vid10] [] [] [] 100 [].
Definition db_commented : DB := snd (addComment (Some " nice ") (POid 10) (Some 2) db_init).
Definition db_reach : DB := snd (toggleCommentLike (POid 100) (Some 2) db_commented).

(** A media store that accepts the file "new.mp4" and rejects any other. *)
Definition up_video_only (path : string) : option CloudResp :=
  if String.eqb path "new.mp4" then Some (mkCloudResp "https://cdn/new.mp4" "vp11" 31) else None.

(** A second video of [db0]'s world, owned by Bob, and a state holding both. *)
Definition vid11 : Video := mkVideo 11 "w.mp4" (Some "vp11") "u.png" (Some "tp11") "dogs" "a dog" 20 3 true 2.
Definition db_two_videos : DB := mkDB [alice; bob] [vid10; vid11] [] [] [] 100 [].

(** Bob likes video 10, then comment 20 of that video. *)
Definition db_video_and_comment_liked : DB :=
  snd (toggleCommentLike (POid 20) (Some 2) (snd (toggleVideoLike (POid 10) (Some 2) db0))).

(** A query compiler that matches the exact text, and the identity as sort stage. *)
Definition regex_exact (q : string) : option (string -> bool) := Some (fun s => String.eqb s q).
Definition sort_none (_ : string) (_ : bool) (l : list Video) : list Video := l.

(** ** Sanity checks of the embedding *)

Example toggleCommentLike_db0 :
  fst (toggleCommentLike (POid 20) (Some 2) db0) = Ok (mkResponse 200 true "comment liked successfully").
Proof. reflexivity. Qed.

Example getVideoById_db0 :
  map views (videos (snd (getVideoById (POid 10) db0))) = [6].
Proof. reflexivity. Qed.

Example trim_example : trim "  a b  " = "a b".
Proof. reflexivity. Qed.

(** ** C1 *)

(** C1 (counterexample): the Like created by [toggleCommentLike] when Bob
    first likes comment 20 has its comment reference set AND its video
    reference set (to video 10, the commented video). *)
Lemma C1_comment_like_has_video :
  find (fun l => opt_eqb (l_comment l) 20 && (likedBy l =? 2)) (likes db0) = None /\
  likes db_comment_liked = [mkLike 100 (Some 10) (Some 20) 2].
Proof. split; reflexivity. Qed.

(** ** C2 *)

(** C2 (failing input): Bob's only Like is a like of comment 20 (created by
    [toggleCommentLike]), yet [getLikedVideos] answers video 10. *)
Lemma C2_comment_like_listed :
  forallb (fun l => match l_comment l with Some _ => true | None => false end)
          (likes db_comment_liked) = true /\
  match fst (getLikedVideos (Some 2) db_comment_liked) with
  | Ok r => map lv_id (data r) = [10]
  | Throw _ _ => False
  end.
Proof. split; reflexivity. Qed.

(** ** C4 *)

(** C4 (failing input): Bob liked comments 20 and 21 of video 10. Two
    successive [toggleVideoLike(10)] calls both answer [isLiked = false];
    a Like matching (video 10, Bob) exists before the two calls but not
    after them, and both comment likes are gone. *)
Lemma C4_double_toggle_not_restored :
  let r1 := toggleVideoLike (POid 10) (Some 2) db_two_comment_likes in
  let r2 := toggleVideoLike (POid 10) (Some 2) (snd r1) in
  fst r1 = Ok (mkResponse 200 false "Video unliked successfully") /\
  fst r2 = Ok (mkResponse 200 false "Video unliked successfully") /\
  existsb (fun l => opt_eqb (l_video l) 10 && (likedBy l =? 2)) (likes db_two_comment_likes) = true /\
  existsb (fun l => opt_eqb (l_video l) 10 && (likedBy l =? 2)) (likes (snd r2)) = false /\
  likes db_two_comment_likes <> likes (snd r2).
Proof. vm_compute. repeat split; discriminate. Qed.

(** ** C7 *)

(** C7 (counterexample): the subscriber list of Alice's channel exposes
    Bob's e-mail address. *)
Lemma C7_subscriber_email_exposed :
  match fst (getUserChannelSubscribers (POid 1) db_subscribed) with
  | Ok r => In ("email", JStr "bob@example.com") (concat (data r))
  | Throw _ _ => False
  end.
Proof. vm_compute. right; right; left; reflexivity. Qed.

(** ** Case analysis over handler runs *)

Ltac split_run :=
  repeat (simpl in *;
          match goal with
          | |- context [match ?x with _ => _ end] =>
              lazymatch x with
              | context [match _ with _ => _ end] => fail
              | _ => destruct x eqn:?
              end
          | |- context [if ?b then _ else _] => destruct b eqn:?
          end).

(** ** C10 *)

(** C10: whenever [updateVideo] fails (invalid input, unknown video, caller
    not the owner, failed upload), the stored videos (and every other
    collection) are those before the request; only the media store may
    have been touched, e.g. the old video file is destroyed before a failed
    thumbnail upload. *)
Theorem C10_updateVideo_fails_without_write :
  (forall up p t d vp tp caller db c m,
     fst (updateVideo up p t d vp tp caller db) = Throw c m ->
     let db' := snd (updateVideo up p t d vp tp caller db) in
     videos db' = videos db /\ comments db' = comments db /\ likes db' = likes db /\
     users db' = users db /\ subscriptions db' = subscriptions db) /\
  (let r := updateVideo up_video_only (POid 10) None None (Some "new.mp4") (Some "new.png") (Some 1) db0 in
   fst r = Throw 500 "Error while uploading new thumbnail to Cloudinary" /\
   In (EvDestroy "vp10" "video") (media_log (snd r))).
Proof.
  split.
  - intros up p t d vp tp caller db c m.
    unfold updateVideo, updateVideoFile, updateThumbnail, requireId, bind, ret, throw,
      Video_findById, Video_findByIdAndUpdate, read, upload, deleteFromCloudinary, modify.
    split_run; intros; try discriminate; repeat split; reflexivity.
  - vm_compute. split; [reflexivity | right; left; reflexivity].
Qed.

Lemma skipn_length_app {A} (l r : list A) : skipn (List.length l) (l ++ r) = r.
Proof. induction l; simpl; auto. Qed.

Lemma skipn_length_self {A} (l : list A) : skipn (List.length l) l = [].
Proof. induction l; simpl; auto. Qed.

Lemma new_events_app (db db' : DB) (r : list MediaEvent) :
  media_log db' = media_log db ++ r -> new_events db db' = r.
Proof. unfold new_events. intros ->. apply skipn_length_app. Qed.

(** ** C6 *)

(** C6: in [updateVideo], the media-store calls of the request destroy an
    old video file (resource type "video") or an old thumbnail ("image")
    only after a complete upload of the replacement file of that field;
    when the upload of a requested replacement fails, the request fails and
    nothing of that field was destroyed. *)
Theorem C6_updateVideo_upload_before_destroy :
  forall up p t d vp tp caller db,
  let r := updateVideo up p t d vp tp caller db in
  let evs := new_events db (snd r) in
  destroys_after_upload "video" (or_empty vp) false evs = true /\
  destroys_after_upload "image" (or_empty tp) false evs = true /\
  (truthy vp = true -> upload_failed (up (or_empty vp)) = true ->
     (exists c m, fst r = Throw c m) /\ forall x, ~ In (EvDestroy x "video") evs) /\
  (truthy tp = true -> upload_failed (up (or_empty tp)) = true ->
     (exists c m, fst r = Throw c m) /\ forall x, ~ In (EvDestroy x "image") evs).
Proof.
  intros up p t d vp tp caller db.
  unfold updateVideo, updateVideoFile, updateThumbnail, requireId, bind, ret, throw,
    Video_findById, Video_findByIdAndUpdate, read, upload, deleteFromCloudinary, modify.
  split_run.
  all: unfold new_events; simpl; rewrite <- ?app_assoc; simpl;
       rewrite ?skipn_length_app, ?skipn_length_self; simpl.
  all: rewrite ?String.eqb_refl;
       repeat match goal with H : upload_complete _ = true |- _ => rewrite H; clear H end;
       simpl.
  all: repeat split; try reflexivity; intros; try discriminate;
       try (do 2 eexists; reflexivity);
       try (let Hx := fresh "Hx" in intro Hx; exact Hx);
       try (let Hx := fresh "Hx" in
            intro Hx; decompose [or] Hx; clear Hx; try discriminate; contradiction).
Qed.

(** ** Collection lemmas *)

Lemma find_in_some {A} (p : A -> bool) (l : list A) (x : A) :
  In x l -> p x = true -> exists y, find p l = Some y.
Proof.
  intros Hin Hp. destruct (find p l) as [y|] eqn:E; [eauto|].
  rewrite (find_none p l E x Hin) in Hp. discriminate.
Qed.

Lemma find_filter_head {A} (p : A -> bool) (l : list A) (x : A) :
  find p l = Some x -> exists rest, filter p l = x :: rest.
Proof.
  induction l as [|a l IH]; simpl; [discriminate|].
  destruct (p a) eqn:E.
  - intros [= ->]. eauto.
  - exact IH.
Qed.

Lemma find_app_skip {A} (p : A -> bool) (pre : list A) (x : A) (post : list A) :
  (forall y, In y pre -> p y = false) -> p x = true -> find p (pre ++ x :: post) = Some x.
Proof.
  induction pre as [|a pre IH]; simpl; intros Hpre Hx.
  - now rewrite Hx.
  - rewrite (Hpre a (or_introl eq_refl)). apply IH; auto.
Qed.

Lemma remove_first_app_skip {A} (p : A -> bool) (pre : list A) (x : A) (post : list A) :
  (forall y, In y pre -> p y = false) -> p x = true -> remove_first p (pre ++ x :: post) = pre ++ post.
Proof.
  induction pre as [|a pre IH]; simpl; intros Hpre Hx.
  - now rewrite Hx.
  - rewrite (Hpre a (or_introl eq_refl)). f_equal. apply IH; auto.
Qed.

Lemma find_none_filter_impl {A} (q r : A -> bool) (l : list A) :
  find q l = None -> (forall x, r x = true -> q x = true) -> filter r l = [].
Proof.
  induction l as [|a l IH]; simpl; auto.
  destruct (q a) eqn:Eq; [discriminate|]. intros H Hrq.
  destruct (r a) eqn:Er; [rewrite (Hrq a Er) in Eq; discriminate|]. auto.
Qed.

Lemma filter_key_le_1 {A} (k : A -> nat) (l : list A) (n : nat) :
  NoDup (map k l) -> List.length (filter (fun x => k x =? n) l) <= 1.
Proof.
  induction l as [|a l IH]; simpl; [lia|]. intros Hnd. inversion Hnd as [|? ? Hna Hnd']; subst.
  destruct (k a =? n) eqn:E; simpl; [|auto].
  apply Nat.eqb_eq in E. subst n.
  assert (filter (fun x => k x =? k a) l = []) as ->; simpl; [|lia].
  apply (find_none_filter_impl (fun x => k x =? k a)).
  - destruct (find _ l) as [y|] eqn:Ey; auto. exfalso. apply Hna.
    apply find_some in Ey as [Hy Hk]. apply Nat.eqb_eq in Hk. rewrite <- Hk. now apply in_map.
  - auto.
Qed.

Lemma filter_none_false {A} (p : A -> bool) (l : list A) :
  (forall x, In x l -> p x = false) -> filter p l = [].
Proof.
  induction l as [|a l IH]; simpl; intros H; [reflexivity|].
  rewrite (H a (or_introl eq_refl)). auto.
Qed.

Lemma filter_unique_key {A} (k : A -> nat) (l : list A) (a : A) :
  NoDup (map k l) -> In a l -> filter (fun b => k b =? k a) l = [a].
Proof.
  induction l as [|x l IH]; simpl; intros Hnd Hin; [contradiction|].
  inversion Hnd as [|? ? Hnot Hnd']; subst.
  destruct Hin as [<- | Hin].
  - rewrite Nat.eqb_refl. f_equal. apply filter_none_false.
    intros y Hy. apply Nat.eqb_neq. intros Heq. apply Hnot. rewrite <- Heq. apply in_map; auto.
  - replace (k x =? k a) with false.
    + auto.
    + symmetry. apply Nat.eqb_neq. intros Heq. apply Hnot. rewrite Heq. apply in_map; auto.
Qed.

Lemma in_lookup_unwind {A B} (f : list B) (m : A -> B -> bool) (xs : list A) a b :
  In a xs -> In b f -> m a b = true -> In (a, b) (lookup_unwind f m xs).
Proof.
  intros Ha Hb Hm. unfold lookup_unwind. apply in_flat_map. exists a. split; auto.
  apply in_map. apply filter_In. auto.
Qed.

Lemma length_filter_unique_key {A} (k : A -> nat) (l : list A) (n : nat) :
  NoDup (map k l) ->
  List.length (filter (fun x => k x =? n) l) = if existsb (fun x => k x =? n) l then 1 else 0.
Proof.
  intros Hnd. pose proof (filter_key_le_1 k l n Hnd) as Hle.
  destruct (existsb _ l) eqn:E.
  - apply existsb_exists in E as [x [Hx Hk]].
    destruct (filter _ l) as [|y ys] eqn:Ef; [|simpl in *; lia].
    assert (Hin : In x (filter (fun x => k x =? n) l)) by (apply filter_In; auto).
    rewrite Ef in Hin. destruct Hin.
  - rewrite filter_none_false; [reflexivity|].
    intros x Hx. destruct (k x =? n) eqn:Ek; auto.
    assert (existsb (fun x => k x =? n) l = true) by (apply existsb_exists; eauto). congruence.
Qed.

Lemma lookup_unwind_length_unique {A B} (foreign : list B) (k : B -> nat) (key : A -> nat) (xs : list A) :
  NoDup (map k foreign) ->
  List.length (lookup_unwind foreign (fun a b => k b =? key a) xs)
  = List.length (filter (fun a => existsb (fun b => k b =? key a) foreign) xs).
Proof.
  intros Hnd. induction xs as [|a xs IH]; [reflexivity|].
  unfold lookup_unwind in *. cbn [flat_map filter].
  rewrite length_app, length_map, IH, (length_filter_unique_key k foreign (key a) Hnd).
  destruct (existsb _ foreign); reflexivity.
Qed.

Lemma filter_filter_and {A} (f g : A -> bool) (l : list A) :
  filter f (filter g l) = filter (fun x => g x && f x) l.
Proof.
  induction l as [|a l IH]; simpl; [reflexivity|].
  destruct (g a); simpl; [destruct (f a); simpl|]; rewrite IH; reflexivity.
Qed.

(** ** C7 *)

Lemma getUserChannelSubscribers_ok : forall chan db,
  exists m, getUserChannelSubscribers (POid chan) db
            = (Ok (mkResponse 200 (subscribersPipeline chan db) m), db).
Proof.
  intros chan db. unfold getUserChannelSubscribers, bind, read, ret. cbn [fst snd].
  destruct (List.length (subscribersPipeline chan db) =? 0) eqn:E; [|eexists; reflexivity].
  apply Nat.eqb_eq, length_zero_iff_nil in E. rewrite E. eexists; reflexivity.
Qed.

Lemma project_subscriber (u : User) :
  project subscriberProjection u
  = [("_id", JOid (u_id u)); ("username", JStr (username u)); ("email", JStr (email u));
     ("avatar", JStr (avatar u)); ("fullName", JStr (fullName u))].
Proof. reflexivity. Qed.

(** C7 (amended): the subscriber list of a channel holds, for each
    subscription of the channel whose subscriber's User record exists, the
    object [{_id, username, email, avatar, fullName}] of that record, and
    nothing else: every entry is such an object (no other User field is
    exposed), every such object is listed, and with unique user ids there
    is exactly one entry per such subscription. *)
Theorem C7_subscriber_fields : forall chan db,
  match fst (getUserChannelSubscribers (POid chan) db) with
  | Ok r =>
    (forall o, In o (data r) ->
      exists s u, In s (subscriptions db) /\ channel s = chan /\
                  In u (users db) /\ u_id u = subscriber s /\
                  o = [("_id", JOid (u_id u)); ("username", JStr (username u));
                       ("email", JStr (email u)); ("avatar", JStr (avatar u));
                       ("fullName", JStr (fullName u))]) /\
    (forall s u, In s (subscriptions db) -> channel s = chan ->
                 In u (users db) -> u_id u = subscriber s ->
                 In [("_id", JOid (u_id u)); ("username", JStr (username u));
                     ("email", JStr (email u)); ("avatar", JStr (avatar u));
                     ("fullName", JStr (fullName u))] (data r)) /\
    (NoDup (map u_id (users db)) ->
     List.length (data r)
     = List.length (filter (fun s => (channel s =? chan) &&
                                     existsb (fun u => u_id u =? subscriber s) (users db))
                           (subscriptions db)))
  | Throw _ _ => False
  end.
Proof.
  intros chan db. destruct (getUserChannelSubscribers_ok chan db) as [m ->]. cbn [fst data].
  split; [|split].
  - intros o Ho. unfold subscribersPipeline, lookup_unwind in Ho.
    apply in_map_iff in Ho as [[s u] [<- Hin]].
    apply in_flat_map in Hin as [s' [Hs' Hin]].
    apply in_map_iff in Hin as [u' [Heq Hu]]. injection Heq as <- <-.
    apply filter_In in Hs' as [Hs' Hc]. apply filter_In in Hu as [Hu Hid].
    apply Nat.eqb_eq in Hc. apply Nat.eqb_eq in Hid.
    exists s', u'. repeat split; auto.
  - intros s u Hs Hc Hu Hid. rewrite <- project_subscriber.
    unfold subscribersPipeline. apply in_map_iff. exists (s, u). split; [reflexivity|].
    apply in_lookup_unwind; auto.
    + apply filter_In. split; auto. now apply Nat.eqb_eq.
    + now apply Nat.eqb_eq.
  - intros Hnd. unfold subscribersPipeline. rewrite length_map.
    rewrite (lookup_unwind_length_unique (users db) u_id subscriber _ Hnd).
    now rewrite filter_filter_and.
Qed.

(** ** C8 *)

(** C8 (code bug): the self-subscription check compares the caller's id,
    spelled by [toString()] in lowercase, with the raw route string. The
    lowercase spelling of one's own id is rejected with 400 and nothing
    changes; any other spelling of it that [isValid] accepts (upper-case
    hexadecimal digits) passes the check, and a subscription of the caller
    to their own channel is created. *)
Theorem C8_self_subscription_other_spelling : forall db u raw,
  In u (users db) ->
  parse_oid raw = Some (u_id u) ->
  (parse_oid (oid_toString (u_id u)) = Some (u_id u) ->
   toggleSubscription (Some (oid_toString (u_id u))) (Some (u_id u)) db
   = (Throw 400 "You cannot subscribe to your own channel.", db)) /\
  (oid_toString (u_id u) <> raw ->
   find (is_subscription (u_id u) (u_id u)) (subscriptions db) = None ->
   let r := toggleSubscription (Some raw) (Some (u_id u)) db in
   fst r = Ok (mkResponse 200 (true, raw) "Subscribed successfully.") /\
   subscriptions (snd r) = subscriptions db ++ [mkSubscription (next_id db) (u_id u) (u_id u)]).
Proof.
  intros db u raw Hu Hp.
  destruct (find_in_some (fun u' => u_id u' =? u_id u) (users db) u Hu (Nat.eqb_refl _))
    as [y Hy].
  split.
  - intros Hc. unfold toggleSubscription, User_findById, bind, read, throw.
    rewrite Hc. cbv beta iota zeta. rewrite Hy. cbv beta iota zeta.
    rewrite String.eqb_refl. reflexivity.
  - intros Hne Hnone.
    unfold toggleSubscription, User_findById, Subscription_create, bind, read, ret, throw.
    rewrite Hp. cbv beta iota zeta. rewrite Hy. cbv beta iota zeta.
    apply String.eqb_neq in Hne. rewrite Hne. cbv beta iota zeta.
    change (fun s => (subscriber s =? u_id u) && (channel s =? u_id u))
      with (is_subscription (u_id u) (u_id u)).
    rewrite Hnone. split; reflexivity.
Qed.

(** ** C9 *)

(** C9: if the only Like of the caller carrying video reference [vid] is a
    like of a comment of video [vid], [toggleVideoLike(vid)] deletes that
    comment like and answers [isLiked = false]; no video like is created. *)
Theorem C9_toggleVideoLike_hits_comment_like :
  forall db vid uid v c l pre post,
  In v (videos db) -> v_id v = vid ->
  In c (comments db) -> c_video c = vid ->
  likes db = pre ++ l :: post ->
  l_video l = Some vid -> likedBy l = uid -> l_comment l = Some (c_id c) ->
  (forall l', In l' (likes db) -> l_video l' = Some vid -> likedBy l' = uid -> l' = l) ->
  NoDup (map l_id (likes db)) ->
  let r := toggleVideoLike (POid vid) (Some uid) db in
  fst r = Ok (mkResponse 200 false "Video unliked successfully") /\
  likes (snd r) = pre ++ post.
Proof.
  intros db vid uid v c l pre post Hv Hvid Hc Hcv Hl Hlv Hlu Hlc Honly Hnd.
  assert (Hpre : forall y, In y pre -> opt_eqb (l_video y) vid && (likedBy y =? uid) = false).
  { intros y Hy. destruct (opt_eqb (l_video y) vid && (likedBy y =? uid)) eqn:E; auto.
    exfalso. apply andb_true_iff in E as [E1 E2].
    destruct (l_video y) as [w|] eqn:Ey; simpl in E1; [|discriminate].
    apply Nat.eqb_eq in E1, E2. subst w.
    assert (y = l) as ->.
    { apply Honly; auto. rewrite Hl. apply in_or_app. now left. }
    rewrite Hl, map_app in Hnd. simpl in Hnd.
    apply NoDup_remove_2 in Hnd. apply Hnd. apply in_or_app. left.
    now apply in_map. }
  assert (Hpre_id : forall y, In y pre -> (l_id y =? l_id l) = false).
  { intros y Hy. apply Nat.eqb_neq. intros Heq.
    rewrite Hl, map_app in Hnd. simpl in Hnd.
    apply NoDup_remove_2 in Hnd. apply Hnd. apply in_or_app. left.
    rewrite <- Heq. now apply in_map. }
  unfold toggleVideoLike, requireId, Video_findById, Like_findOne, Like_deleteOne_byId,
    bind, read, ret, modify. simpl.
  destruct (find_in_some (fun v' => v_id v' =? vid) (videos db) v Hv
              (proj2 (Nat.eqb_eq _ _) Hvid)) as [w ->].
  rewrite Hl, find_app_skip; auto.
  - simpl. split; [reflexivity|]. rewrite Hl.
    apply remove_first_app_skip; auto. apply Nat.eqb_refl.
  - rewrite Hlv, Hlu. simpl. now rewrite !Nat.eqb_refl.
Qed.

Lemma find_update_first {A} (p : A -> bool) (f : A -> A) (l : list A) (x : A) :
  find p l = Some x -> p (f x) = true -> find p (update_first p f l) = Some (f x).
Proof.
  induction l as [|a l IH]; simpl; [discriminate|].
  destruct (p a) eqn:E.
  - intros [= ->] Hf. simpl. now rewrite Hf.
  - intros H Hf. simpl. rewrite E. auto.
Qed.

Lemma find_none_filter {A} (p : A -> bool) (l : list A) :
  find p l = None -> filter p l = [].
Proof.
  induction l as [|a l IH]; simpl; auto.
  destruct (p a); [discriminate|exact IH].
Qed.

Lemma videoByIdPipeline_head (db : DB) (vid : ObjectId) (v : Video) (u : User) :
  find (fun v' => v_id v' =? vid) (videos db) = Some v ->
  In u (users db) -> u_id u = owner v ->
  exists u0 rest, videoByIdPipeline vid db = detail v u0 :: rest.
Proof.
  intros Hv Hu Hown.
  destruct (find_filter_head _ _ _ Hv) as [vs Hvs].
  destruct (find_in_some (fun u' => u_id u' =? owner v) (users db) u Hu
              (proj2 (Nat.eqb_eq _ _) Hown)) as [u0 Hu0].
  destruct (find_filter_head _ _ _ Hu0) as [us Hus].
  unfold videoByIdPipeline, lookup_unwind. rewrite Hvs. simpl. rewrite Hus. simpl.
  eexists _, _. reflexivity.
Qed.

(** ** C5 *)

(** For a valid id of a stored video whose owner's User record exists,
    [getVideoById] answers the video with the view counter incremented by
    exactly one, and the stored counter is incremented by exactly one; a
    missing or malformed id fails with 400 and an unknown video with 404,
    the database being unchanged in both cases. *)
Theorem getVideoById_views : forall db p,
  let r := getVideoById p db in
  match p with
  | POid vid =>
    match find (fun v => v_id v =? vid) (videos db) with
    | Some v =>
      (exists u, In u (users db) /\ u_id u = owner v) ->
      (exists d, fst r = Ok (mkResponse 200 d "Video fetched successfully") /\
                 d_id d = v_id v /\ d_views d = views v + 1) /\
      find (fun v' => v_id v' =? vid) (videos (snd r)) = Some (set_views (views v + 1) v) /\
      videos (snd r) = update_first (fun v' => v_id v' =? vid)
                                    (fun v' => set_views (views v' + 1) v') (videos db)
    | None => fst r = Throw 404 "Video not found" /\ snd r = db
    end
  | PMissing | PBad _ => (exists m, fst r = Throw 400 m) /\ snd r = db
  end.
Proof.
  intros db p. destruct p as [|vid|s]; simpl; [eauto|..|eauto].
  destruct (find (fun v => v_id v =? vid) (videos db)) as [v|] eqn:Hv.
  - intros [u [Hu Hown]].
    destruct (videoByIdPipeline_head db vid v u Hv Hu Hown) as [u0 [rest Hp]].
    unfold getVideoById, requireId, bind, read, ret, Video_findByIdAndUpdate. simpl.
    rewrite Hp, Hv. simpl.
    split; [|split].
    + eexists. split; [reflexivity|]. simpl. auto.
    + apply (find_update_first _ (fun v' => set_views (views v' + 1) v') _ v); auto.
      simpl. apply Nat.eqb_eq.
      apply find_some in Hv as [_ Hv]. now apply Nat.eqb_eq in Hv.
    + reflexivity.
  - unfold getVideoById, requireId, bind, read, ret. simpl.
    assert (Hnil : videoByIdPipeline vid db = []).
    { unfold videoByIdPipeline, lookup_unwind.
      rewrite (find_none_filter _ _ Hv). reflexivity. }
    rewrite Hnil. split; reflexivity.
Qed.


(** C5 (code bug): a stored video whose owner has no User record is
    dropped by the [$unwind] of the owner (no [preserveNullAndEmptyArrays]):
    [getVideoById] fails with 404 "Video not found" for its valid id and
    leaves the database, its view counter included, unchanged. *)
Theorem C5_orphan_video_404 : forall db vid v,
  NoDup (map v_id (videos db)) -> In v (videos db) -> v_id v = vid ->
  (forall u, In u (users db) -> u_id u <> owner v) ->
  getVideoById (POid vid) db = (Throw 404 "Video not found", db).
Proof.
  intros db vid v Hnd Hv <- Hno.
  unfold getVideoById, requireId, bind, read, ret, throw. cbv beta iota zeta.
  unfold videoByIdPipeline. rewrite (filter_unique_key v_id _ v Hnd Hv).
  unfold lookup_unwind. cbn [flat_map].
  rewrite filter_none_false; [reflexivity|].
  intros u Hu. apply Nat.eqb_neq. exact (Hno u Hu).
Qed.

(** ** The invariant of reachable states *)

Definition ckey (c : Comment) : ObjectId * ObjectId := (c_id c, c_video c).

Lemma In_remove_first {A} (p : A -> bool) (l : list A) (x : A) :
  In x (remove_first p l) -> In x l.
Proof.
  induction l as [|a l IH]; simpl; auto.
  destruct (p a); simpl; intuition.
Qed.

Lemma In_remove_first_keep {A} (p : A -> bool) (l : list A) (x : A) :
  In x l -> p x = false -> In x (remove_first p l).
Proof.
  induction l as [|a l IH]; simpl; auto.
  intros [<- | H] Hx.
  - rewrite Hx. now left.
  - destruct (p a); simpl; auto.
Qed.

Lemma filter_remove_first_le {A} (q p : A -> bool) (l : list A) :
  List.length (filter q (remove_first p l)) <= List.length (filter q l).
Proof.
  induction l as [|a l IH]; simpl; auto.
  destruct (p a); simpl; destruct (q a); simpl; lia.
Qed.

Lemma filter_filter_le {A} (q r : A -> bool) (l : list A) :
  List.length (filter q (filter r l)) <= List.length (filter q l).
Proof.
  induction l as [|a l IH]; simpl; auto.
  destruct (r a); simpl; destruct (q a); simpl; lia.
Qed.

Lemma filter_app_length {A} (q : A -> bool) (l r : list A) :
  List.length (filter q (l ++ r)) = List.length (filter q l) + List.length (filter q r).
Proof. rewrite filter_app, length_app. reflexivity. Qed.

Lemma map_update_first {A B} (g : A -> B) (p : A -> bool) (f : A -> A) (l : list A) :
  (forall x, g (f x) = g x) -> map g (update_first p f l) = map g l.
Proof.
  intros Hg. induction l as [|a l IH]; simpl; auto.
  destruct (p a); simpl; rewrite ?Hg, ?IH; reflexivity.
Qed.

Lemma key_transfer (l l' : list Comment) (c : Comment) :
  map ckey l' = map ckey l -> In c l' ->
  exists c0, In c0 l /\ c_id c0 = c_id c /\ c_video c0 = c_video c.
Proof.
  intros Hm Hc. assert (Hk : In (ckey c) (map ckey l)) by (rewrite <- Hm; now apply in_map).
  apply in_map_iff in Hk as [c0 [Hk Hc0]]. unfold ckey in Hk. injection Hk as H1 H2. eauto.
Qed.

Lemma Inv_init (db : DB) : comments db = [] -> likes db = [] -> Inv db.
Proof.
  intros Hc Hl. constructor; rewrite ?Hc, ?Hl; simpl; intros; try contradiction; lia.
Qed.

(** Fewer likes, the same comment keys, a larger id counter. *)
Lemma Inv_mono (db db' : DB) :
  Inv db ->
  map ckey (comments db') = map ckey (comments db) ->
  next_id db <= next_id db' ->
  (forall l, In l (likes db') -> In l (likes db)) ->
  (forall q, List.length (filter q (likes db')) <= List.length (filter q (likes db))) ->
  Inv db'.
Proof.
  intros HI Hk Hn Hl Hq. constructor.
  - intros l H. apply (inv_video_set _ HI), Hl, H.
  - intros l c H Hc Hlc. destruct (key_transfer _ _ c Hk Hc) as [c0 [Hc0 [E1 E2]]].
    rewrite <- E2. apply (inv_denorm _ HI); auto. now rewrite E1.
  - intros l x H Hx. destruct (inv_no_dangling _ HI l x (Hl l H) Hx) as [c [Hc Hcx]].
    symmetry in Hk. destruct (key_transfer _ _ c Hk Hc) as [c1 [Hc1 [E1 _]]].
    exists c1. split; congruence.
  - intros c Hc. destruct (key_transfer _ _ c Hk Hc) as [c0 [Hc0 [E1 _]]].
    pose proof (inv_comment_fresh _ HI c0 Hc0). lia.
  - intros c1 c2 H1 H2 E.
    destruct (key_transfer _ _ c1 Hk H1) as [d1 [Hd1 [F1 G1]]].
    destruct (key_transfer _ _ c2 Hk H2) as [d2 [Hd2 [F2 G2]]].
    rewrite <- G1, <- G2. apply (inv_comment_video _ HI); auto. congruence.
  - intros v u. specialize (Hq (is_video_like v u)).
    pose proof (inv_unique_video_like _ HI v u). lia.
  - intros c u. specialize (Hq (is_comment_like c u)).
    pose proof (inv_unique_comment_like _ HI c u). lia.
Qed.

Lemma Inv_frame (db db' : DB) :
  Inv db -> likes db' = likes db -> comments db' = comments db -> next_id db <= next_id db' ->
  Inv db'.
Proof.
  intros HI Hl Hc Hn. apply (Inv_mono db); auto.
  - now rewrite Hc.
  - now rewrite Hl.
  - intros q. now rewrite Hl.
Qed.

Lemma Inv_add_like (db db' : DB) (nl : Like) :
  Inv db ->
  likes db' = likes db ++ [nl] -> comments db' = comments db -> next_id db <= next_id db' ->
  l_video nl <> None ->
  (forall x, l_comment nl = Some x ->
     exists c, In c (comments db) /\ c_id c = x /\ l_video nl = Some (c_video c)) ->
  (forall v u, is_video_like v u nl = true -> filter (is_video_like v u) (likes db) = []) ->
  (forall c u, is_comment_like c u nl = true -> filter (is_comment_like c u) (likes db) = []) ->
  Inv db'.
Proof.
  intros HI Hl Hc Hn Hv Hd Huv Huc. constructor; rewrite ?Hl, ?Hc.
  - intros l H. apply in_app_or in H as [H | [<- | []]]; auto. now apply (inv_video_set _ HI).
  - intros l c H Hcm Hlc. apply in_app_or in H as [H | [<- | []]].
    + now apply (inv_denorm _ HI).
    + destruct (Hd _ Hlc) as [c0 [Hc0 [E1 E2]]]. rewrite E2. f_equal.
      apply (inv_comment_video _ HI); auto.
  - intros l x H Hx. apply in_app_or in H as [H | [<- | []]].
    + now apply (inv_no_dangling _ HI l).
    + destruct (Hd _ Hx) as [c0 [Hc0 [E1 _]]]. eauto.
  - intros c H. pose proof (inv_comment_fresh _ HI c H). lia.
  - apply (inv_comment_video _ HI).
  - intros v u. rewrite filter_app_length. simpl.
    destruct (is_video_like v u nl) eqn:E.
    + rewrite (Huv v u E). simpl. lia.
    + pose proof (inv_unique_video_like _ HI v u). simpl. lia.
  - intros c u. rewrite filter_app_length. simpl.
    destruct (is_comment_like c u nl) eqn:E.
    + rewrite (Huc c u E). simpl. lia.
    + pose proof (inv_unique_comment_like _ HI c u). simpl. lia.
Qed.

Lemma Inv_add_comment (db db' : DB) (nc : Comment) :
  Inv db ->
  comments db' = comments db ++ [nc] -> likes db' = likes db ->
  c_id nc = next_id db -> next_id db < next_id db' ->
  Inv db'.
Proof.
  intros HI Hc Hl Hid Hn. constructor; rewrite ?Hl, ?Hc.
  - apply (inv_video_set _ HI).
  - intros l c H Hcm Hlc. apply in_app_or in Hcm as [Hcm | [<- | []]].
    + now apply (inv_denorm _ HI).
    + exfalso. rewrite Hid in Hlc.
      destruct (inv_no_dangling _ HI l _ H Hlc) as [c0 [Hc0 E]].
      pose proof (inv_comment_fresh _ HI c0 Hc0). lia.
  - intros l x H Hx. destruct (inv_no_dangling _ HI l x H Hx) as [c [Hcm E]].
    exists c. split; auto. apply in_or_app. now left.
  - intros c Hcm. apply in_app_or in Hcm as [Hcm | [<- | []]].
    + pose proof (inv_comment_fresh _ HI c Hcm). lia.
    + lia.
  - intros c1 c2 H1 H2 E.
    apply in_app_or in H1 as [H1 | [<- | []]]; apply in_app_or in H2 as [H2 | [<- | []]];
      auto; [apply (inv_comment_video _ HI); auto| |];
      exfalso; [pose proof (inv_comment_fresh _ HI c1 H1) | pose proof (inv_comment_fresh _ HI c2 H2)];
      lia.
  - apply (inv_unique_video_like _ HI).
  - apply (inv_unique_comment_like _ HI).
Qed.

(** Cascade of [deleteComment]. *)
Lemma Inv_delete_comment (db db' : DB) (cid : ObjectId) :
  Inv db ->
  likes db' = filter (fun l => negb (opt_eqb (l_comment l) cid)) (likes db) ->
  comments db' = remove_first (fun c => c_id c =? cid) (comments db) ->
  next_id db <= next_id db' ->
  Inv db'.
Proof.
  intros HI Hl Hc Hn. constructor; rewrite ?Hl, ?Hc.
  - intros l H. apply filter_In in H as [H _]. now apply (inv_video_set _ HI).
  - intros l c H Hcm. apply filter_In in H as [H _]. apply In_remove_first in Hcm.
    now apply (inv_denorm _ HI).
  - intros l x H Hx. apply filter_In in H as [H Hk].
    destruct (inv_no_dangling _ HI l x H Hx) as [c [Hcm E]].
    exists c. split; auto. apply In_remove_first_keep; auto.
    apply Nat.eqb_neq. intros E'. rewrite Hx in Hk. simpl in Hk.
    rewrite <- E, E', Nat.eqb_refl in Hk. discriminate.
  - intros c H. apply In_remove_first in H. pose proof (inv_comment_fresh _ HI c H). lia.
  - intros c1 c2 H1 H2. apply In_remove_first in H1, H2. now apply (inv_comment_video _ HI).
  - intros v u. pose proof (inv_unique_video_like _ HI v u).
    pose proof (filter_filter_le (is_video_like v u) (fun l => negb (opt_eqb (l_comment l) cid)) (likes db)).
    lia.
  - intros c u. pose proof (inv_unique_comment_like _ HI c u).
    pose proof (filter_filter_le (is_comment_like c u) (fun l => negb (opt_eqb (l_comment l) cid)) (likes db)).
    lia.
Qed.

(** Cascade of [deleteVideo]. *)
Lemma Inv_delete_video (db db' : DB) (vid : ObjectId) :
  Inv db ->
  likes db' = filter (fun l => negb (opt_eqb (l_video l) vid)) (likes db) ->
  comments db' = filter (fun c => negb (c_video c =? vid)) (comments db) ->
  next_id db <= next_id db' ->
  Inv db'.
Proof.
  intros HI Hl Hc Hn. constructor; rewrite ?Hl, ?Hc.
  - intros l H. apply filter_In in H as [H _]. now apply (inv_video_set _ HI).
  - intros l c H Hcm. apply filter_In in H as [H _]. apply filter_In in Hcm as [Hcm _].
    now apply (inv_denorm _ HI).
  - intros l x H Hx. apply filter_In in H as [H Hk].
    destruct (inv_no_dangling _ HI l x H Hx) as [c [Hcm E]].
    exists c. split; auto. apply filter_In. split; auto.
    destruct (c_video c =? vid) eqn:Ev; auto. exfalso.
    apply Nat.eqb_eq in Ev. subst x.
    rewrite (inv_denorm _ HI l c H Hcm Hx), Ev in Hk. simpl in Hk.
    rewrite Nat.eqb_refl in Hk. discriminate.
  - intros c H. apply filter_In in H as [H _]. pose proof (inv_comment_fresh _ HI c H). lia.
  - intros c1 c2 H1 H2. apply filter_In in H1 as [H1 _]. apply filter_In in H2 as [H2 _].
    now apply (inv_comment_video _ HI).
  - intros v u. pose proof (inv_unique_video_like _ HI v u).
    pose proof (filter_filter_le (is_video_like v u) (fun l => negb (opt_eqb (l_video l) vid)) (likes db)).
    lia.
  - intros c u. pose proof (inv_unique_comment_like _ HI c u).
    pose proof (filter_filter_le (is_comment_like c u) (fun l => negb (opt_eqb (l_video l) vid)) (likes db)).
    lia.
Qed.

(** Closes an invariant goal for a state with one Like removed. *)
Ltac close_remove_like HI :=
  apply (Inv_mono _ _ HI); simpl;
  [ reflexivity | lia
  | intros ? ?; eapply In_remove_first; eassumption
  | intros ?; apply filter_remove_first_le ].

Lemma toggleVideoLike_Inv p u db : Inv db -> Inv (snd (toggleVideoLike p u db)).
Proof.
  intros HI.
  unfold toggleVideoLike, requireId, Video_findById, Like_findOne, Like_deleteOne_byId,
    Like_create, bind, read, ret, throw, modify.
  split_run.
  all: simpl; try exact HI; try solve [close_remove_like HI].
  match goal with H : find _ (likes db) = None |- _ => rename H into Hnone end.
  eapply (Inv_add_like db); [exact HI | reflexivity | reflexivity | simpl; lia
         | discriminate | discriminate | | ].
  - intros v0 w Hv. unfold is_video_like in Hv. simpl in Hv.
    apply andb_true_iff in Hv as [E1 E2]. apply Nat.eqb_eq in E1, E2. subst.
    apply (find_none_filter_impl _ _ _ Hnone).
    intros x Hx. unfold is_video_like in Hx. destruct (l_comment x); [discriminate|exact Hx].
  - intros c w Hc. discriminate.
Qed.

Lemma toggleCommentLike_Inv p u db : Inv db -> Inv (snd (toggleCommentLike p u db)).
Proof.
  intros HI.
  unfold toggleCommentLike, requireId, Comment_findById, Like_findOne, Like_deleteOne_byId,
    Like_create, bind, read, ret, throw, modify.
  split_run.
  all: simpl; try exact HI; try solve [close_remove_like HI].
  match goal with H : find _ (likes db) = None |- _ => rename H into Hnone end.
  match goal with H : find _ (comments db) = Some _ |- _ => rename H into Hc end.
  apply find_some in Hc as [Hc Hcid]. apply Nat.eqb_eq in Hcid.
  eapply (Inv_add_like db); [exact HI | reflexivity | reflexivity | simpl; lia
         | discriminate | | | ].
  - intros x Hx. simpl in Hx. injection Hx as <-. eauto.
  - intros v0 w Hv. discriminate.
  - intros c' w Hw. unfold is_comment_like in Hw. simpl in Hw.
    apply andb_true_iff in Hw as [E1 E2]. apply Nat.eqb_eq in E1, E2. subst.
    apply (find_none_filter_impl _ _ _ Hnone). intros x Hx. exact Hx.
Qed.

Ltac close_frame HI :=
  apply (Inv_frame _ _ HI); simpl; [reflexivity | reflexivity | lia].

Ltac unfold_handlers :=
  unfold getLikedVideos, getVideoById, publishAVideo, updateVideo, updateVideoFile,
    updateThumbnail, togglePublishStatus, toggleSubscription, getUserChannelSubscribers,
    addComment, updateComment, deleteComment, deleteVideo,
    Subscription_create, requireId, Video_findById, Comment_findById, User_findById,
    Video_findByIdAndUpdate, Video_deleteOne, Like_deleteMany, Comment_deleteMany,
    Comment_deleteMany_byVideo, deleteFromCloudinary, upload,
    bind, read, ret, throw, modify.

(** The spelling of ids plays no part in the invariant. *)
Opaque oid_toString parse_oid.

Lemma step_Inv db db' : Inv db -> step db db' -> Inv db'.
Proof.
  intros HI Hs. destruct Hs.
  - now apply toggleVideoLike_Inv.
  - now apply toggleCommentLike_Inv.
  - unfold_handlers. split_run; simpl; try exact HI.
  - unfold_handlers. split_run; simpl; try exact HI; close_frame HI.
  - unfold_handlers. split_run; simpl; try exact HI; close_frame HI.
  - unfold_handlers. split_run; simpl; try exact HI; close_frame HI.
  - (* deleteVideo *)
    unfold_handlers. split_run; simpl; try exact HI.
    all: eapply (Inv_delete_video _ _ _ HI); simpl; [reflexivity | reflexivity | lia].
  - unfold_handlers. split_run; simpl; try exact HI; close_frame HI.
  - (* addComment *)
    unfold_handlers. split_run; simpl; try exact HI.
    eapply (Inv_add_comment _ _ _ HI); simpl; [reflexivity | reflexivity | reflexivity | lia].
  - (* updateComment *)
    unfold_handlers. split_run; simpl; try exact HI.
    apply (Inv_mono _ _ HI); simpl; auto.
    apply map_update_first. reflexivity.
  - (* deleteComment *)
    unfold_handlers. split_run; simpl; try exact HI.
    all: eapply (Inv_delete_comment _ _ _ HI); simpl; [reflexivity | reflexivity | lia].
  - unfold_handlers. split_run; simpl; try exact HI; close_frame HI.
  - unfold_handlers. split_run; simpl; try exact HI.
Qed.

Transparent oid_toString parse_oid.

Lemma reachable_Inv db : reachable db -> Inv db.
Proof.
  induction 1 as [db Hc Hl | db db' _ IH Hs].
  - now apply Inv_init.
  - exact (step_Inv db db' IH Hs).
Qed.

Lemma filter_split_length {A} (p : A -> bool) (l : list A) :
  List.length l = List.length (filter p l) + List.length (filter (fun x => negb (p x)) l).
Proof.
  induction l as [|a l IH]; simpl; auto.
  destruct (p a); simpl; lia.
Qed.

Lemma remove_first_length {A} (p : A -> bool) (l : list A) :
  existsb p l = true -> List.length l = S (List.length (remove_first p l)).
Proof.
  induction l as [|a l IH]; simpl; [discriminate|].
  destruct (p a); simpl; auto.
Qed.

(** Under the invariant, the likes associated with a video are exactly the
    likes whose video reference is that video. *)
Lemma associated_is_video_ref (db : DB) (vid : ObjectId) :
  Inv db -> forall l, In l (likes db) -> associated_with db vid l = opt_eqb (l_video l) vid.
Proof.
  intros HI l Hl. unfold associated_with.
  destruct (opt_eqb (l_video l) vid) eqn:E; auto. simpl.
  destruct (existsb _ (comments db)) eqn:Eb; auto. exfalso.
  apply existsb_exists in Eb as [c [Hc Hp]].
  apply andb_true_iff in Hp as [Ev Ec].
  destruct (l_comment l) as [x|] eqn:Hx; [|discriminate]. simpl in Ec.
  apply Nat.eqb_eq in Ec, Ev. subst x.
  rewrite (inv_denorm _ HI l c Hl Hc Hx), Ev in E. simpl in E.
  rewrite Nat.eqb_refl in E. discriminate.
Qed.

(** ** C1 *)

(** C1 (amended): in every reachable state, every Like has its video
    reference set; a like of a comment has its comment reference set to an
    existing comment and its video reference equal to that comment's video;
    there is at most one video like per (video, liker) and at most one like
    per (comment, liker). In particular the Like created by
    [toggleCommentLike] when no Like(comment, liker) exists has its comment
    reference set and its video reference set to the comment's video. *)
Theorem C1_like_references : forall db,
  reachable db ->
  (forall l, In l (likes db) ->
     l_video l <> None /\
     (forall c, In c (comments db) -> l_comment l = Some (c_id c) -> l_video l = Some (c_video c)) /\
     (forall x, l_comment l = Some x -> exists c, In c (comments db) /\ c_id c = x)) /\
  (forall v u, List.length (filter (is_video_like v u) (likes db)) <= 1) /\
  (forall c u, List.length (filter (is_comment_like c u) (likes db)) <= 1) /\
  (forall cid u c,
     find (fun c' => c_id c' =? cid) (comments db) = Some c ->
     find (fun l => opt_eqb (l_comment l) cid && (likedBy l =? u)) (likes db) = None ->
     likes (snd (toggleCommentLike (POid cid) (Some u) db))
     = likes db ++ [mkLike (next_id db) (Some (c_video c)) (Some cid) u]).
Proof.
  intros db Hr. pose proof (reachable_Inv db Hr) as HI.
  split; [|split; [|split]].
  - intros l Hl. split; [|split].
    + now apply (inv_video_set _ HI).
    + intros c Hc. now apply (inv_denorm _ HI).
    + intros x. now apply (inv_no_dangling _ HI).
  - apply (inv_unique_video_like _ HI).
  - apply (inv_unique_comment_like _ HI).
  - intros cid u c Hc Hnone.
    unfold toggleCommentLike, requireId, Comment_findById, Like_findOne, Like_create,
      bind, read, ret. simpl. rewrite Hc, Hnone. reflexivity.
Qed.

(** ** C3 *)

(** C3: in a reachable state, a successful [deleteVideo(vid)] removes
    exactly the N comments of the video, exactly the M likes associated
    with it (likes of the video and likes of its comments) and exactly one
    video; no remaining Like references the video or one of its former
    comments. *)
Theorem C3_deleteVideo_cascade : forall db vid caller,
  reachable db ->
  let r := deleteVideo (POid vid) caller db in
  (exists resp, fst r = Ok resp) ->
  let db' := snd r in
  List.length (comments db)
    = List.length (comments db') + List.length (filter (fun c => c_video c =? vid) (comments db)) /\
  List.length (likes db)
    = List.length (likes db') + List.length (filter (associated_with db vid) (likes db)) /\
  List.length (videos db) = S (List.length (videos db')) /\
  (forall l, In l (likes db') ->
     l_video l <> Some vid /\
     forall c, In c (comments db) -> c_video c = vid -> l_comment l <> Some (c_id c)).
Proof.
  intros db vid caller Hr. pose proof (reachable_Inv db Hr) as HI.
  unfold deleteVideo, requireId, Video_findById, Like_deleteMany, Comment_deleteMany_byVideo,
    Comment_deleteMany, Video_deleteOne, deleteFromCloudinary, bind, read, ret, throw, modify.
  split_run; intros [resp Hresp]; try discriminate.
  all: match goal with H : existsb _ _ = true |- _ => rename H into Hex end.
  all: rewrite (filter_ext_in _ _ _ (associated_is_video_ref db vid HI)).
  all: simpl.
  all: split; [pose proof (filter_split_length (fun c => c_video c =? vid) (comments db)); lia|].
  all: split; [pose proof (filter_split_length (fun l => opt_eqb (l_video l) vid) (likes db)); lia|].
  all: split; [exact (remove_first_length _ _ Hex)|].
  all: intros l Hl; apply filter_In in Hl as [Hl Hk];
       destruct (opt_eqb (l_video l) vid) eqn:E; try discriminate.
  all: split; [intros Hv; rewrite Hv in E; simpl in E; rewrite Nat.eqb_refl in E; discriminate|].
  all: intros c Hc Hcv Hlc; rewrite (inv_denorm _ HI l c Hl Hc Hlc), Hcv in E; simpl in E;
       rewrite Nat.eqb_refl in E; discriminate.
Qed.

(** ** Witnesses *)

Lemma reachable_db_reach : reachable db_reach.
Proof.
  apply (reach_step db_commented db_reach); [| apply st_toggleCommentLike].
  apply (reach_step db_init db_commented); [| apply st_addComment].
  apply reach_init; reflexivity.
Qed.

(** C1: in the reachable state [db_reach], Bob's like of comment 100 is unique. *)
Lemma C1_like_references_witness :
  reachable db_reach /\
  List.length (filter (is_comment_like 100 2) (likes db_reach)) <= 1.
Proof.
  pose proof reachable_db_reach as H.
  split; [exact H | exact (proj1 (proj2 (proj2 (C1_like_references db_reach H))) 100 2)].
Defined.

(** C3: Alice deletes video 10 in [db_reach]; one video row fewer. *)
Lemma C3_deleteVideo_cascade_witness :
  reachable db_reach /\
  (exists resp, fst (deleteVideo (POid 10) (Some 1) db_reach) = Ok resp) /\
  List.length (videos db_reach) = S (List.length (videos (snd (deleteVideo (POid 10) (Some 1) db_reach)))).
Proof.
  pose proof reachable_db_reach as H.
  assert (Hok : exists resp, fst (deleteVideo (POid 10) (Some 1) db_reach) = Ok resp)
    by (eexists; vm_compute; reflexivity).
  split; [exact H | split; [exact Hok |]].
  exact (proj1 (proj2 (proj2 (C3_deleteVideo_cascade db_reach 10 (Some 1) H Hok)))).
Defined.

(** C5: video 10 is stored in [db_orphan_video], but its owner Alice is
    not: [getVideoById] answers 404 and its 5 views stay 5. *)
Lemma C5_orphan_video_404_witness :
  In vid10 (videos db_orphan_video) /\
  getVideoById (POid 10) db_orphan_video = (Throw 404 "Video not found", db_orphan_video).
Proof.
  split; [left; reflexivity|].
  apply (C5_orphan_video_404 db_orphan_video 10 vid10).
  - vm_compute. constructor; [simpl; tauto | constructor].
  - left; reflexivity.
  - reflexivity.
  - intros u [<- | []]. vm_compute. discriminate.
Defined.

(** C6: a rejected upload of "new.mp4" makes the request fail. *)
Lemma C6_updateVideo_upload_before_destroy_witness :
  truthy (Some "new.mp4") = true /\ upload_failed (None : option CloudResp) = true /\
  exists c m, fst (updateVideo (fun _ => None) (POid 10) None None (Some "new.mp4") None (Some 1) db0)
              = Throw c m.
Proof.
  split; [reflexivity | split; [reflexivity |]].
  exact (proj1 (proj1 (proj2 (proj2 (C6_updateVideo_upload_before_destroy
           (fun _ => None) (POid 10) None None (Some "new.mp4") None (Some 1) db0)))
           eq_refl eq_refl)).
Defined.

(** C7: Bob, the only subscriber of Alice's channel in [db_subscribed],
    is listed exactly once. *)
Lemma C7_subscriber_fields_witness :
  NoDup (map u_id (users db_subscribed)) /\
  exists r, fst (getUserChannelSubscribers (POid 1) db_subscribed) = Ok r /\
            List.length (data r) = 1.
Proof.
  assert (Hnd : NoDup (map u_id (users db_subscribed))).
  { vm_compute. constructor; [simpl; lia | constructor; [simpl; lia | constructor]]. }
  split; [exact Hnd|].
  destruct (fst (getUserChannelSubscribers (POid 1) db_subscribed)) as [r|c m] eqn:E;
    [|vm_compute in E; discriminate].
  pose proof (C7_subscriber_fields 1 db_subscribed) as H. rewrite E in H.
  exists r. split; [reflexivity|].
  rewrite (proj2 (proj2 H) Hnd). vm_compute. reflexivity.
Defined.

(** C8: Carol (id 0x1a) sends her own id as "00000000000000000000001A":
    she is subscribed to her own channel, while the lowercase spelling is
    rejected. *)
Lemma C8_self_subscription_other_spelling_witness :
  toggleSubscription (Some "00000000000000000000001a") (Some 26) db_carol
  = (Throw 400 "You cannot subscribe to your own channel.", db_carol) /\
  fst (toggleSubscription (Some "00000000000000000000001A") (Some 26) db_carol)
  = Ok (mkResponse 200 (true, "00000000000000000000001A") "Subscribed successfully.") /\
  subscriptions (snd (toggleSubscription (Some "00000000000000000000001A") (Some 26) db_carol))
  = [mkSubscription 100 26 26].
Proof.
  assert (Hc : In carol (users db_carol)) by (right; right; left; reflexivity).
  assert (Hp : parse_oid "00000000000000000000001A" = Some (u_id carol)) by (vm_compute; reflexivity).
  destruct (C8_self_subscription_other_spelling db_carol carol "00000000000000000000001A" Hc Hp)
    as [H1 H2].
  split; [exact (H1 ltac:(vm_compute; reflexivity))|].
  exact (H2 ltac:(vm_compute; discriminate) eq_refl).
Defined.

(** C9: Bob's like of comment 20 is removed by [toggleVideoLike(10)]. *)
Lemma C9_toggleVideoLike_hits_comment_like_witness :
  likes db_comment_liked = [mkLike 100 (Some 10) (Some 20) 2] /\
  fst (toggleVideoLike (POid 10) (Some 2) db_comment_liked)
  = Ok (mkResponse 200 false "Video unliked successfully") /\
  likes (snd (toggleVideoLike (POid 10) (Some 2) db_comment_liked)) = [].
Proof.
  split; [vm_compute; reflexivity |].
  apply (C9_toggleVideoLike_hits_comment_like db_comment_liked 10 2 vid10 com20
           (mkLike 100 (Some 10) (Some 20) 2) [] []);
    vm_compute; try reflexivity.
  - left; reflexivity.
  - left; reflexivity.
  - intros l' [<- | []] _ _; reflexivity.
  - constructor; [intros [] | constructor].
Defined.

(** C10: the failed thumbnail upload leaves the stored videos unchanged. *)
Lemma C10_updateVideo_fails_without_write_witness :
  fst (updateVideo up_video_only (POid 10) None None (Some "new.mp4") (Some "new.png") (Some 1) db0)
  = Throw 500 "Error while uploading new thumbnail to Cloudinary" /\
  videos (snd (updateVideo up_video_only (POid 10) None None (Some "new.mp4") (Some "new.png") (Some 1) db0))
  = videos db0.
Proof.
  assert (Hf : fst (updateVideo up_video_only (POid 10) None None (Some "new.mp4") (Some "new.png") (Some 1) db0)
               = Throw 500 "Error while uploading new thumbnail to Cloudinary")
    by (vm_compute; reflexivity).
  split; [exact Hf |].
  exact (proj1 (proj1 C10_updateVideo_fails_without_write up_video_only (POid 10) None None
           (Some "new.mp4") (Some "new.png") (Some 1) db0 _ _ Hf)).
Defined.

(** ** Further properties of the handlers *)

(** *** Video listing *)

Lemma in_lookup_unwind_preserve {A B} (f : list B) (m : A -> B -> bool) (xs : list A) a o :
  In (a, o) (lookup_unwind_preserve f m xs) ->
  In a xs /\ match o with None => filter (m a) f = [] | Some b => In b f /\ m a b = true end.
Proof.
  unfold lookup_unwind_preserve. intros H. apply in_flat_map in H as [a' [Ha' H]].
  destruct (filter (m a') f) as [|b bs] eqn:E.
  - destruct H as [H | []]. injection H as <- <-. auto.
  - apply in_map_iff in H as [b' [Hb Hin]]. injection Hb as <- <-.
    rewrite <- E in Hin. apply filter_In in Hin. auto.
Qed.

Lemma lookup_unwind_preserve_complete {A B} (f : list B) (m : A -> B -> bool) (xs : list A) a :
  In a xs -> exists o, In (a, o) (lookup_unwind_preserve f m xs) /\
                       (filter (m a) f = [] -> o = None).
Proof.
  unfold lookup_unwind_preserve. intros Ha.
  destruct (filter (m a) f) as [|b bs] eqn:E.
  - exists None. split; auto. apply in_flat_map. exists a. rewrite E. simpl. auto.
  - exists (Some b). split; [|discriminate]. apply in_flat_map. exists a. rewrite E. simpl. auto.
Qed.

Lemma lookup_unwind_preserve_app {A B} (f : list B) (m : A -> B -> bool) (xs ys : list A) :
  lookup_unwind_preserve f m (xs ++ ys)
  = lookup_unwind_preserve f m xs ++ lookup_unwind_preserve f m ys.
Proof. unfold lookup_unwind_preserve. apply flat_map_app. Qed.

Lemma lookup_unwind_preserve_length {A B} (f : list B) (m : A -> B -> bool) (xs : list A) :
  (forall a, In a xs -> List.length (filter (m a) f) <= 1) ->
  List.length (lookup_unwind_preserve f m xs) = List.length xs.
Proof.
  unfold lookup_unwind_preserve. induction xs as [|a xs IH]; [reflexivity|]. intros H.
  cbn [flat_map]. rewrite length_app, IH by (intros; apply H; now right).
  cbn [List.length].
  specialize (H a (or_introl eq_refl)).
  destruct (filter (m a) f) as [|b [|b' bs]]; simpl in *; lia.
Qed.

Lemma in_firstn_in {A} (n : nat) (l : list A) (x : A) : In x (firstn n l) -> In x l.
Proof. intros H. rewrite <- (firstn_skipn n l). apply in_or_app. now left. Qed.

Lemma in_skipn_in {A} (n : nat) (l : list A) (x : A) : In x (skipn n l) -> In x l.
Proof. intros H. rewrite <- (firstn_skipn n l). apply in_or_app. now right. Qed.

(** Membership in the listing, for any parameters of the pipeline. *)
Lemma allVideosPipeline_in ss qm ownerId k a sk lim db e :
  (forall k a l v, In v (ss k a l) -> In v l) ->
  In e (allVideosPipeline ss qm ownerId k a sk lim db) ->
  exists v, In v (videos db) /\
    vl_id e = v_id v /\ vl_title e = title v /\ vl_description e = description v /\
    vl_views e = views v /\
    (forall u, ownerId = Some u -> owner v = u) /\
    (forall m, qm = Some m -> (m (title v) || m (description v)) = true) /\
    match vl_owner e with
    | None => forall u, In u (users db) -> u_id u <> owner v
    | Some o => exists u, In u (users db) /\ u_id u = owner v /\ o = summarize u
    end.
Proof.
  intros Hss He. unfold allVideosPipeline in He.
  apply in_map_iff in He as [[v o] [<- Hin]].
  apply in_lookup_unwind_preserve in Hin as [Hv Ho].
  apply in_firstn_in, in_skipn_in, Hss in Hv.
  assert (H2 : In v (match qm with
                     | Some m => filter (fun v => m (title v) || m (description v)) (videos db)
                     | None => videos db end) /\ forall u, ownerId = Some u -> owner v = u).
  { destruct ownerId as [u|]; [|split; [exact Hv | discriminate]].
    apply filter_In in Hv as [Hv Hu]. apply Nat.eqb_eq in Hu.
    split; [exact Hv | intros u' Hu'; congruence]. }
  destruct H2 as [Hv1 Hown].
  assert (H3 : In v (videos db) /\
               forall m, qm = Some m -> (m (title v) || m (description v)) = true).
  { destruct qm as [m|]; [|split; [exact Hv1 | discriminate]].
    apply filter_In in Hv1 as [Hv1 Hm]. split; [exact Hv1 | intros m' Hm'; congruence]. }
  destruct H3 as [Hvdb Hq].
  exists v. simpl. repeat split; auto.
  destruct o as [u|]; simpl.
  - destruct Ho as [Hu Hm]. apply Nat.eqb_eq in Hm. eauto.
  - intros u Hu Heq. assert (In u (filter (fun u => u_id u =? owner v) (users db))) as Hf.
    { apply filter_In. split; auto. now apply Nat.eqb_eq. }
    rewrite Ho in Hf. destruct Hf.
Qed.

Lemma allVideosPipeline_length ss qm ownerId k a sk lim db :
  NoDup (map u_id (users db)) ->
  List.length (allVideosPipeline ss qm ownerId k a sk lim db) <= lim.
Proof.
  intros Hnd. unfold allVideosPipeline. rewrite length_map.
  rewrite lookup_unwind_preserve_length.
  - apply firstn_le_length.
  - intros v _. now apply filter_key_le_1.
Qed.

(** Answers of [getAllVideos] that are not errors: the pipeline run with
    the parameters derived from the request, the database left unchanged. *)
Lemma getAllVideos_ok cr ss page limit query sortBy sortType userId db r :
  fst (getAllVideos cr ss page limit query sortBy sortType userId db) = Ok r ->
  exists qm ownerId k a,
    snd (getAllVideos cr ss page limit query sortBy sortType userId db) = db /\
    (forall u, userId = POid u -> ownerId = Some u) /\
    (truthy query = true -> exists m, cr (or_empty query) = Some m /\ qm = Some m) /\
    1 <= or_keep page 1 /\ 1 <= or_keep limit 10 /\
    r = mkResponse 200 (allVideosPipeline ss qm ownerId k a
                          ((or_keep page 1 - 1) * or_keep limit 10) (or_keep limit 10) db)
                   "Videos fetched successfully".
Proof.
  unfold getAllVideos, aggregateFailed, bind, read, ret, throw.
  destruct userId as [|u|s]; [| |discriminate];
  destruct (truthy sortBy && truthy sortType);
  destruct (truthy query) eqn:Eq; try destruct (cr (or_empty query)) as [m|] eqn:Ec;
  cbn [fst snd option_map]; try discriminate;
  destruct ((or_keep limit 10 =? 0) || (or_keep page 1 =? 0)) eqn:E0; try discriminate;
  cbn [fst]; intros H; injection H as <-;
  apply orb_false_iff in E0 as [E1 E2]; apply Nat.eqb_neq in E1, E2;
  eexists _, _, _, _; (split; [reflexivity|]);
  (split; [intros u' Hu'; first [discriminate | injection Hu'; intros <-; reflexivity]|]);
  (split; [intros Hq; first [discriminate | eexists; split; reflexivity]|]);
  repeat split; try lia.
Qed.

(** *** getAllVideos *)

(** [getAllVideos] only answers stored videos: each entry carries the
    fields of a stored video owned by [userId] when one is given and whose
    title or description matches [query] when one is given; its [owner] is
    the summary of the owner's User record, or is absent when there is no
    such record. A page holds at most [limit] entries (user ids being
    unique), and the database is not modified. *)
Theorem getAllVideos_sound :
  forall compileRegex sortStage page limit query sortBy sortType userId db r,
  (forall k a l v, In v (sortStage k a l) -> In v l) ->
  NoDup (map u_id (users db)) ->
  let res := getAllVideos compileRegex sortStage page limit query sortBy sortType userId db in
  fst res = Ok r ->
  snd res = db /\
  List.length (data r) <= or_keep limit 10 /\
  forall e, In e (data r) ->
    exists v, In v (videos db) /\
      vl_id e = v_id v /\ vl_title e = title v /\ vl_description e = description v /\
      vl_views e = views v /\
      (forall u, userId = POid u -> owner v = u) /\
      (truthy query = true ->
         exists m, compileRegex (or_empty query) = Some m /\
                   (m (title v) || m (description v)) = true) /\
      match vl_owner e with
      | None => forall u, In u (users db) -> u_id u <> owner v
      | Some o => exists u, In u (users db) /\ u_id u = owner v /\ o = summarize u
      end.
Proof.
  intros cr ss page limit query sortBy sortType userId db r Hss Hnd res Hr.
  destruct (getAllVideos_ok cr ss page limit query sortBy sortType userId db r Hr)
    as [qm [ownerId [k [a [Hdb [Hown [Hq [Hp [Hl ->]]]]]]]]].
  split; [exact Hdb|]. split; [apply allVideosPipeline_length, Hnd|].
  intros e He. simpl in He.
  destruct (allVideosPipeline_in _ _ _ _ _ _ _ _ e Hss He)
    as [v [Hv [E1 [E2 [E3 [E4 [Hvo [Hvq Hvu]]]]]]]].
  exists v. refine (conj Hv (conj E1 (conj E2 (conj E3 (conj E4 (conj _ (conj _ Hvu))))))).
  - intros u Hu. apply Hvo, Hown, Hu.
  - intros Ht. destruct (Hq Ht) as [m [Hm ->]]. exists m. split; auto.
Qed.

(** [getAllVideos] hides nothing on the first page: when the limit covers
    all stored videos, every stored video that passes the [userId] and
    [query] filters is listed, whatever its [isPublished] flag; when its
    owner has no User record it is still listed, with no [owner] field. *)
Theorem getAllVideos_lists_every_match :
  forall compileRegex sortStage limit query sortBy sortType userId db v,
  (forall k a l, Permutation (sortStage k a l) l) ->
  In v (videos db) ->
  (userId = PMissing \/ userId = POid (owner v)) ->
  (truthy query = true ->
     exists m, compileRegex (or_empty query) = Some m /\
               (m (title v) || m (description v)) = true) ->
  1 <= or_keep limit 10 ->
  List.length (videos db) <= or_keep limit 10 ->
  exists r e,
    fst (getAllVideos compileRegex sortStage None limit query sortBy sortType userId db) = Ok r /\
    In e (data r) /\ vl_id e = v_id v /\ vl_views e = views v /\
    ((forall u, In u (users db) -> u_id u <> owner v) -> vl_owner e = None).
Proof.
  intros cr ss limit query sortBy sortType userId db v Hss Hv Hu Hq Hl1 Hl.
  set (qm := if truthy query then option_map Some (cr (or_empty query)) else Some None).
  assert (Hqm : exists m0, qm = Some m0 /\
                  forall m, m0 = Some m -> (m (title v) || m (description v)) = true).
  { unfold qm. destruct (truthy query) eqn:Et.
    - destruct (Hq eq_refl) as [m [Hm Hmv]]. rewrite Hm. exists (Some m).
      split; [reflexivity | intros m' Hm'; injection Hm' as <-; exact Hmv].
    - exists None. split; [reflexivity | discriminate]. }
  destruct Hqm as [m0 [Hqm Hm0]].
  set (ownerId := match userId with POid u => Some u | _ => None end).
  set (ka := if truthy sortBy && truthy sortType
             then (or_empty sortBy, String.eqb (or_empty sortType) "asc")
             else ("createdAt", false)).
  assert (Hrun : fst (getAllVideos cr ss None limit query sortBy sortType userId db)
                 = Ok (mkResponse 200 (allVideosPipeline ss m0 ownerId (fst ka) (snd ka) 0
                                          (or_keep limit 10) db)
                                  "Videos fetched successfully")).
  { unfold getAllVideos, aggregateFailed, bind, read, ret, throw.
    fold qm. rewrite Hqm. cbn [or_keep].
    destruct (or_keep limit 10 =? 0) eqn:E0; [apply Nat.eqb_eq in E0; lia|].
    destruct Hu as [-> | ->]; unfold ownerId, ka;
      destruct (truthy sortBy && truthy sortType); reflexivity. }
  set (s2 := match ownerId with
             | Some u => filter (fun v => owner v =? u)
                           (match m0 with
                            | Some m => filter (fun v => m (title v) || m (description v)) (videos db)
                            | None => videos db end)
             | None => match m0 with
                       | Some m => filter (fun v => m (title v) || m (description v)) (videos db)
                       | None => videos db end
             end).
  assert (Hs2 : In v s2).
  { assert (Hs1 : In v (match m0 with
                        | Some m => filter (fun v => m (title v) || m (description v)) (videos db)
                        | None => videos db end)).
    { destruct m0 as [m|]; auto. apply filter_In. split; auto. }
    unfold s2, ownerId. destruct Hu as [-> | ->]; auto.
    apply filter_In. split; auto. apply Nat.eqb_refl. }
  assert (Hlen : List.length (ss (fst ka) (snd ka) s2) <= or_keep limit 10).
  { rewrite (Permutation_length (Hss _ _ _)).
    assert (List.length s2 <= List.length (videos db)); [|lia].
    unfold s2. destruct ownerId; destruct m0; rewrite ?filter_filter_le;
      try apply filter_length_le;
      try (eapply Nat.le_trans; apply filter_length_le); lia. }
  assert (Hin : In v (firstn (or_keep limit 10) (skipn 0 (ss (fst ka) (snd ka) s2)))).
  { simpl. rewrite firstn_all2 by exact Hlen.
    apply (Permutation_in _ (Permutation_sym (Hss _ _ _)) Hs2). }
  destruct (lookup_unwind_preserve_complete (users db) (fun v u => u_id u =? owner v) _ v Hin)
    as [o [Ho Hnone]].
  eexists _, _. split; [exact Hrun|]. simpl.
  split; [unfold allVideosPipeline; apply in_map_iff; exists (v, o); split; [reflexivity | exact Ho]|].
  simpl. repeat split.
  intros Hno. rewrite Hnone; [reflexivity|].
  destruct (filter _ (users db)) as [|u us] eqn:Ef; auto.
  assert (Hu' : In u (filter (fun u => u_id u =? owner v) (users db))) by (rewrite Ef; now left).
  apply filter_In in Hu' as [Hu' Heq]. apply Nat.eqb_eq in Heq. exfalso. exact (Hno u Hu' Heq).
Qed.

(** *** Subscriptions *)

Lemma two_in_length {A} (l : list A) (x y : A) :
  In x l -> In y l -> x <> y -> 2 <= List.length l.
Proof.
  destruct l as [|a [|b l]]; simpl; try tauto.
  - intros [<- | []] [<- | []] H. now destruct H.
  - intros. lia.
Qed.

Lemma remove_first_key_gone {A} (k : A -> nat) (l : list A) (n : nat) (y : A) :
  NoDup (map k l) -> In n (map k l) -> In y (remove_first (fun z => k z =? n) l) -> k y <> n.
Proof.
  induction l as [|a l IH]; simpl; [tauto|].
  intros Hnd Hn. inversion Hnd as [|? ? Hna Hnd']; subst.
  destruct (k a =? n) eqn:E.
  - apply Nat.eqb_eq in E. subst n. intros Hy Heq. apply Hna. rewrite <- Heq. now apply in_map.
  - apply Nat.eqb_neq in E. destruct Hn as [Hn | Hn]; [congruence|].
    intros [<- | Hy]; auto.
Qed.

(** [getSubscribedChannels] exposes, for each channel the user subscribes
    to, exactly the fields [_id], [username], [fullName] and [avatar] of the
    channel's User record, in that order (no e-mail address, password or
    token). *)
Theorem getSubscribedChannels_fields : forall sub db,
  match fst (getSubscribedChannels (POid sub) db) with
  | Ok r =>
    forall o, In o (data r) ->
      exists s u, In s (subscriptions db) /\ subscriber s = sub /\
                  In u (users db) /\ u_id u = channel s /\
                  o = [("_id", JOid (u_id u)); ("username", JStr (username u));
                       ("fullName", JStr (fullName u)); ("avatar", JStr (avatar u))]
  | Throw _ _ => False
  end.
Proof.
  intros sub db. unfold getSubscribedChannels, bind, read, ret. simpl.
  destruct (List.length (subscribedChannelsPipeline sub db) =? 0); simpl; intros o Ho; [destruct Ho|].
  unfold subscribedChannelsPipeline, lookup_unwind in Ho.
  apply in_map_iff in Ho as [[s u] [<- Hin]].
  apply in_flat_map in Hin as [s' [Hs' Hin]].
  apply in_map_iff in Hin as [u' [Heq Hu]]. injection Heq as <- <-.
  apply filter_In in Hs' as [Hs' Hc]. apply filter_In in Hu as [Hu Hid].
  apply Nat.eqb_eq in Hc. apply Nat.eqb_eq in Hid.
  exists s', u'. repeat split; auto.
Qed.

(** After [toggleSubscription] answers [isSubscribed = true], the channel's
    profile is listed by [getSubscribedChannels] for the subscriber, and the
    subscriber's profile (when its User record exists) by
    [getUserChannelSubscribers] for the channel. *)
Theorem subscribe_then_listed : forall db sub chan raw uc r,
  parse_oid raw = Some chan -> In uc (users db) -> u_id uc = chan ->
  fst (toggleSubscription (Some raw) (Some sub) db) = Ok r -> fst (data r) = true ->
  let db' := snd (toggleSubscription (Some raw) (Some sub) db) in
  (exists r1, fst (getSubscribedChannels (POid sub) db') = Ok r1 /\
              In (project channelProjection uc) (data r1)) /\
  (forall us, In us (users db) -> u_id us = sub ->
     exists r2, fst (getUserChannelSubscribers (POid chan) db') = Ok r2 /\
                In (project subscriberProjection us) (data r2)).
Proof.
  intros db sub chan raw uc r Hp Huc Hid.
  unfold toggleSubscription, User_findById, Subscription_create, bind, read, ret, throw, modify.
  rewrite Hp. cbn [fst snd].
  destruct (find (fun u => u_id u =? chan) (users db)) as [c|]; [|discriminate].
  destruct (String.eqb (oid_toString sub) raw); [discriminate|].
  destruct (find _ (subscriptions db)) as [s|]; cbn [fst snd]; intros H; injection H as <-;
    [discriminate|]. intros _.
  set (s0 := mkSubscription (next_id db) sub chan).
  assert (Hs0 : In s0 (subscriptions db ++ [s0])) by (apply in_or_app; right; now left).
  split.
  - unfold getSubscribedChannels, bind, read, ret. cbn [fst snd].
    assert (Hin : In (project channelProjection uc)
                     (subscribedChannelsPipeline sub
                        (bump_id (set_subscriptions db (subscriptions db ++ [s0]))))).
    { unfold subscribedChannelsPipeline. simpl.
      apply in_map_iff. exists (s0, uc). split; [reflexivity|].
      apply in_lookup_unwind; auto.
      - apply filter_In. split; auto. simpl. apply Nat.eqb_refl.
      - simpl. rewrite Hid. apply Nat.eqb_refl. }
    destruct (List.length _ =? 0) eqn:E; [|eexists; split; [reflexivity | exact Hin]].
    apply Nat.eqb_eq, length_zero_iff_nil in E. rewrite E in Hin. destruct Hin.
  - intros us Hus Husid. unfold getUserChannelSubscribers, bind, read, ret. cbn [fst snd].
    assert (Hin : In (project subscriberProjection us)
                     (subscribersPipeline chan
                        (bump_id (set_subscriptions db (subscriptions db ++ [s0]))))).
    { unfold subscribersPipeline. simpl.
      apply in_map_iff. exists (s0, us). split; [reflexivity|].
      apply in_lookup_unwind; auto.
      - apply filter_In. split; auto. simpl. apply Nat.eqb_refl.
      - simpl. rewrite Husid. apply Nat.eqb_refl. }
    destruct (List.length _ =? 0) eqn:E; [|eexists; split; [reflexivity | exact Hin]].
    apply Nat.eqb_eq, length_zero_iff_nil in E. rewrite E in Hin. destruct Hin.
Qed.

(** Toggling a subscription twice restores it: with at most one
    subscription per (subscriber, channel) and unique subscription ids
    below the id counter, two [toggleSubscription] calls answer
    [isSubscribed] as the negation of, then equal to, whether the
    subscription existed; afterwards it exists exactly when it did before,
    and when it did not, the subscriptions are exactly the original ones. *)
Theorem toggleSubscription_twice : forall db sub chan raw,
  parse_oid raw = Some chan -> oid_toString sub <> raw ->
  (exists u, In u (users db) /\ u_id u = chan) ->
  List.length (filter (is_subscription sub chan) (subscriptions db)) <= 1 ->
  NoDup (map s_id (subscriptions db)) ->
  (forall s, In s (subscriptions db) -> s_id s < next_id db) ->
  let e := existsb (is_subscription sub chan) (subscriptions db) in
  let r1 := toggleSubscription (Some raw) (Some sub) db in
  let r2 := toggleSubscription (Some raw) (Some sub) (snd r1) in
  (exists m1, fst r1 = Ok (mkResponse 200 (negb e, raw) m1)) /\
  (exists m2, fst r2 = Ok (mkResponse 200 (e, raw) m2)) /\
  existsb (is_subscription sub chan) (subscriptions (snd r2)) = e /\
  (e = false -> subscriptions (snd r2) = subscriptions db).
Proof.
  intros db sub chan raw Hp Hne [uc [Huc Hid]] Hle Hnd Hfresh.
  assert (Hneq : String.eqb (oid_toString sub) raw = false) by (now apply String.eqb_neq).
  destruct (find_in_some (fun u => u_id u =? chan) (users db) uc Huc
              (proj2 (Nat.eqb_eq _ _) Hid)) as [c Hc].
  unfold toggleSubscription, User_findById, Subscription_create, bind, read, ret, throw, modify.
  rewrite Hp. cbn [fst snd]. rewrite Hc, Hneq.
  change (fun s : Subscription => (subscriber s =? sub) && (channel s =? chan))
    with (is_subscription sub chan).
  destruct (find (is_subscription sub chan) (subscriptions db)) as [s|] eqn:Hf;
    cbn [fst snd users set_subscriptions bump_id]; rewrite Hc.
  - (* the subscription existed: removed, then created again *)
    apply find_some in Hf as [Hs Hps].
    assert (He : existsb (is_subscription sub chan) (subscriptions db) = true)
      by (apply existsb_exists; eauto).
    rewrite He.
    assert (Hgone : find (is_subscription sub chan)
                      (remove_first (fun s' => s_id s' =? s_id s) (subscriptions db)) = None).
    { destruct (find _ (remove_first _ _)) as [y|] eqn:Hy; auto. exfalso.
      apply find_some in Hy as [Hy Hpy].
      pose proof (remove_first_key_gone s_id _ _ _ Hnd (in_map _ _ _ Hs) Hy) as Hky.
      apply In_remove_first in Hy.
      assert (2 <= List.length (filter (is_subscription sub chan) (subscriptions db))); [|lia].
      apply (two_in_length _ y s); try (apply filter_In; auto). congruence. }
    cbn [subscriptions set_subscriptions]. rewrite Hgone. cbn [fst snd subscriptions].
    split; [eexists; reflexivity|]. split; [eexists; reflexivity|].
    split; [|discriminate].
    cbn [subscriptions set_subscriptions bump_id next_id]. rewrite existsb_app. simpl. unfold is_subscription at 2. simpl.
    rewrite !Nat.eqb_refl. now rewrite orb_true_r.
  - (* it did not exist: created, then removed *)
    assert (He : existsb (is_subscription sub chan) (subscriptions db) = false).
    { destruct (existsb _ _) eqn:E; auto. apply existsb_exists in E as [y [Hy Hpy]].
      rewrite (find_none _ _ Hf y Hy) in Hpy. discriminate. }
    rewrite He. cbn [subscriptions set_subscriptions bump_id].
    set (s0 := mkSubscription (next_id db) sub chan).
    assert (Hpre : forall y, In y (subscriptions db) -> is_subscription sub chan y = false)
      by (intros y Hy; exact (find_none _ _ Hf y Hy)).
    assert (Hps0 : is_subscription sub chan s0 = true)
      by (unfold is_subscription; simpl; now rewrite !Nat.eqb_refl).
    rewrite (find_app_skip _ (subscriptions db) s0 [] Hpre Hps0). cbn [fst snd subscriptions s_id].
    assert (Hrm : remove_first (fun s' => s_id s' =? next_id db) (subscriptions db ++ [s0])
                  = subscriptions db).
    { rewrite (remove_first_app_skip _ (subscriptions db) s0 []).
      - apply app_nil_r.
      - intros y Hy. apply Nat.eqb_neq. specialize (Hfresh y Hy). lia.
      - apply Nat.eqb_refl. }
    split; [eexists; reflexivity|]. split; [eexists; reflexivity|].
    cbn [subscriptions set_subscriptions bump_id]. change (s_id s0) with (next_id db).
    rewrite Hrm. split; [exact He | reflexivity].
Qed.

(** *** Videos and comments: ownership and updates *)

Lemma find_split {A} (p : A -> bool) (l : list A) (x : A) :
  find p l = Some x ->
  exists pre post, l = pre ++ x :: post /\ (forall y, In y pre -> p y = false) /\ p x = true.
Proof.
  induction l as [|a l IH]; simpl; [discriminate|].
  destruct (p a) eqn:E.
  - intros [= <-]. exists [], l. split; [reflexivity|]. split; [intros _ []|exact E].
  - intros H. destruct (IH H) as [pre [post [-> [Hpre Hx]]]].
    exists (a :: pre), post. split; [reflexivity|]. split; auto.
    intros y [<- | Hy]; auto.
Qed.

Lemma update_first_split {A} (p : A -> bool) (f : A -> A) (pre : list A) (x : A) (post : list A) :
  (forall y, In y pre -> p y = false) -> p x = true ->
  update_first p f (pre ++ x :: post) = pre ++ f x :: post.
Proof.
  induction pre as [|a pre IH]; simpl; intros Hpre Hx.
  - now rewrite Hx.
  - rewrite (Hpre a (or_introl eq_refl)). f_equal. auto.
Qed.

(** A caller who does not own a stored video gets a 403 from each of the
    three video mutations, before any upload, media deletion or write:
    the database, media log included, is left as it was. *)
Theorem video_mutations_owner_only : forall db vid v caller,
  find (fun v => v_id v =? vid) (videos db) = Some v ->
  is_owner (owner v) caller = false ->
  deleteVideo (POid vid) caller db = (Throw 403 "You are not authorized to delete this video", db) /\
  togglePublishStatus (POid vid) caller db =
    (Throw 403 "You are not authorized to toggle video publish status.", db) /\
  (forall up title_ description_ videoFileLocalPath thumbnailLocalPath,
     truthy title_ || truthy description_ || truthy videoFileLocalPath || truthy thumbnailLocalPath = true ->
     updateVideo up (POid vid) title_ description_ videoFileLocalPath thumbnailLocalPath caller db =
     (Throw 403 "You are not authorized to update this video", db)).
Proof.
  intros db vid v caller Hf Ho.
  split; [|split; [|intros up t d vf th Ht]];
    unfold deleteVideo, togglePublishStatus, updateVideo, requireId, Video_findById,
      bind, read, ret, throw; cbv beta iota zeta;
    try (rewrite Ht; cbn [negb]; cbv beta iota zeta);
    rewrite Hf; cbv beta iota zeta; rewrite Ho; reflexivity.
Qed.

(** A signed-in user who does not own a stored comment gets a 403 from
    [updateComment] (with non-blank content) and from [deleteComment], and
    the database is left as it was; without a signed-in user both answer 401. *)
Theorem comment_mutations_owner_only : forall db cid c uid content_,
  find (fun c => c_id c =? cid) (comments db) = Some c ->
  c_owner c <> uid ->
  blank content_ = false ->
  updateComment content_ (POid cid) (Some uid) db =
    (Throw 403 "You are not authorized to update this comment", db) /\
  deleteComment (POid cid) (Some uid) db =
    (Throw 403 "You are not authorized to delete this comment", db) /\
  updateComment content_ (POid cid) None db =
    (Throw 401 "User not authenticated to update comments", db) /\
  deleteComment (POid cid) None db =
    (Throw 401 "User not authenticated to delete comments", db).
Proof.
  intros db cid c uid content_ Hf Hne Hb.
  apply Nat.eqb_neq in Hne.
  unfold updateComment, deleteComment, requireId, Comment_findById, bind, read, ret, throw.
  rewrite Hb. cbv beta iota zeta. rewrite Hf. cbv beta iota zeta. rewrite Hne.
  repeat split.
Qed.

Lemma updateVideoFile_frame up v p uf db :
  same_but_media db (snd (updateVideoFile up v p uf db)) /\
  forall uf', fst (updateVideoFile up v p uf db) = Ok uf' ->
    uf_title uf' = uf_title uf /\ uf_description uf' = uf_description uf /\
    uf_thumbnail uf' = uf_thumbnail uf /\ uf_thumbnailPublicId uf' = uf_thumbnailPublicId uf /\
    (truthy p = false -> uf' = uf).
Proof.
  unfold updateVideoFile, same_but_media, upload, deleteFromCloudinary, modify, bind, ret, throw.
  split_run; (split; [repeat split; reflexivity|]); intros uf' H; try discriminate;
    injection H as <-; repeat split; try reflexivity; intro; congruence.
Qed.

Lemma updateThumbnail_frame up v p uf db :
  same_but_media db (snd (updateThumbnail up v p uf db)) /\
  forall uf', fst (updateThumbnail up v p uf db) = Ok uf' ->
    uf_title uf' = uf_title uf /\ uf_description uf' = uf_description uf /\
    uf_videoFile uf' = uf_videoFile uf /\ uf_videoPublicId uf' = uf_videoPublicId uf /\
    uf_duration uf' = uf_duration uf /\
    (truthy p = false -> uf' = uf).
Proof.
  unfold updateThumbnail, same_but_media, upload, deleteFromCloudinary, modify, bind, ret, throw.
  split_run; (split; [repeat split; reflexivity|]); intros uf' H; try discriminate;
    injection H as <-; repeat split; try reflexivity; intro; congruence.
Qed.

(** A successful [updateVideo] rewrites the stored video in place, at the
    same position of the collection, and touches no other collection: the
    id, views, publish flag and owner are kept, the title and description
    are replaced only by truthy request values, and the file and thumbnail
    fields change only when a replacement file was given. *)
Theorem updateVideo_success : forall up db vid title_ description_ vf th caller r,
  fst (updateVideo up (POid vid) title_ description_ vf th caller db) = Ok r ->
  let db' := snd (updateVideo up (POid vid) title_ description_ vf th caller db) in
  exists pre v post,
    videos db = pre ++ v :: post /\ v_id v = vid /\ is_owner (owner v) caller = true /\
    videos db' = pre ++ data r :: post /\
    users db' = users db /\ comments db' = comments db /\ likes db' = likes db /\
    subscriptions db' = subscriptions db /\ next_id db' = next_id db /\
    statusCode r = 200 /\
    v_id (data r) = vid /\ views (data r) = views v /\ isPublished (data r) = isPublished v /\
    owner (data r) = owner v /\
    title (data r) = (if truthy title_ then or_empty title_ else title v) /\
    description (data r) = (if truthy description_ then or_empty description_ else description v) /\
    (truthy vf = false ->
       videoFile (data r) = videoFile v /\ videoPublicId (data r) = videoPublicId v /\
       duration (data r) = duration v) /\
    (truthy th = false ->
       thumbnail (data r) = thumbnail v /\ thumbnailPublicId (data r) = thumbnailPublicId v).
Proof.
  intros up db vid t d vf th caller r.
  unfold updateVideo, requireId, Video_findById, Video_findByIdAndUpdate, bind, read, ret, throw.
  cbv beta iota zeta.
  destruct (negb _); [discriminate|]. cbv beta iota zeta.
  destruct (find (fun v => v_id v =? vid) (videos db)) as [v|] eqn:Hf; [|discriminate].
  cbv beta iota zeta.
  destruct (negb (is_owner (owner v) caller)) eqn:Ho; [discriminate|].
  apply negb_false_iff in Ho.
  set (uf0 := mkUpdateFields (if truthy t then t else None) (if truthy d then d else None)
                             None None None None None).
  cbv beta iota zeta.
  pose proof (updateVideoFile_frame up v vf uf0 db) as [F1 G1].
  destruct (updateVideoFile up v vf uf0 db) as [[uf1|c1 m1] db1]; [|discriminate].
  cbv beta iota zeta. cbn [fst snd] in F1, G1. specialize (G1 uf1 eq_refl).
  pose proof (updateThumbnail_frame up v th uf1 db1) as [F2 G2].
  destruct (updateThumbnail up v th uf1 db1) as [[uf2|c2 m2] db2]; [|discriminate].
  cbv beta iota zeta. cbn [fst snd] in F2, G2. specialize (G2 uf2 eq_refl).
  destruct F1 as (U1 & V1 & C1 & L1 & S1 & N1). destruct F2 as (U2 & V2 & C2 & L2 & S2 & N2).
  rewrite V2, V1, Hf. cbn [fst snd].
  intros H. injection H as <-. cbn [data statusCode].
  destruct (find_split _ _ _ Hf) as [pre [post [Hl [Hpre Hx]]]].
  exists pre, v, post.
  destruct G1 as (T1 & D1 & Th1 & Tp1 & E1). destruct G2 as (T2 & D2 & Vf2 & Vp2 & Du2 & E2).
  split; [exact Hl|]. split; [apply Nat.eqb_eq; exact Hx|]. split; [exact Ho|].
  split.
  { unfold set_videos. cbn [videos]. rewrite Hl. apply update_first_split; auto. }
  unfold set_videos. cbn [users comments likes subscriptions next_id].
  rewrite U2, U1, C2, C1, L2, L1, S2, S1, N2, N1.
  do 5 (split; [reflexivity|]).
  unfold apply_update. cbn [v_id videoFile videoPublicId thumbnail thumbnailPublicId title
    description duration views isPublished owner].
  split; [reflexivity|]. split; [apply Nat.eqb_eq; exact Hx|].
  split; [reflexivity|]. split; [reflexivity|]. split; [reflexivity|].
  split.
  { rewrite T2, T1. unfold uf0. cbn [uf_title]. destruct (truthy t) eqn:Et; [|reflexivity].
    destruct t; [reflexivity|discriminate]. }
  split.
  { rewrite D2, D1. unfold uf0. cbn [uf_description]. destruct (truthy d) eqn:Ed; [|reflexivity].
    destruct d; [reflexivity|discriminate]. }
  split.
  { intros Hvf. rewrite Vf2, Vp2, Du2, (E1 Hvf). unfold uf0. cbn. repeat split; reflexivity. }
  { intros Hth. rewrite (E2 Hth), Th1, Tp1. unfold uf0. cbn. split; reflexivity. }
Qed.

Lemma filter_all_true {A} (p : A -> bool) (l : list A) :
  (forall x, In x l -> p x = true) -> filter p l = l.
Proof.
  induction l as [|a l IH]; simpl; intros H; [reflexivity|].
  rewrite (H a (or_introl eq_refl)). f_equal. auto.
Qed.

Lemma addComment_at db content_ vid uid v :
  blank content_ = false ->
  find (fun v => v_id v =? vid) (videos db) = Some v ->
  addComment content_ (POid vid) (Some uid) db =
  (Ok (mkResponse 201 (mkComment (next_id db) (trim (or_empty content_)) vid uid)
                  "Comment added successfully"),
   bump_id (set_comments db (comments db ++ [mkComment (next_id db) (trim (or_empty content_)) vid uid]))).
Proof.
  intros Hb Hf. unfold addComment, requireId, Video_findById, bind, read, ret, throw.
  rewrite Hb. cbv beta iota zeta. rewrite Hf. reflexivity.
Qed.

(** Adding a comment and then deleting it, as its author, restores the
    comments and the likes of the database; only the id counter has moved.
    The fresh id must not be carried already by a comment or a like. *)
Theorem addComment_then_deleteComment : forall db content_ vid uid v,
  blank content_ = false ->
  find (fun v => v_id v =? vid) (videos db) = Some v ->
  (forall c, In c (comments db) -> c_id c <> next_id db) ->
  (forall l, In l (likes db) -> l_comment l <> Some (next_id db)) ->
  let r1 := addComment content_ (POid vid) (Some uid) db in
  let r2 := deleteComment (POid (next_id db)) (Some uid) (snd r1) in
  fst r2 = Ok (mkResponse 200 tt "Comment deleted successfully") /\
  comments (snd r2) = comments db /\ likes (snd r2) = likes db /\
  videos (snd r2) = videos db /\ users (snd r2) = users db /\
  subscriptions (snd r2) = subscriptions db /\ media_log (snd r2) = media_log db.
Proof.
  intros db content_ vid uid v Hb Hf Hc Hl r1 r2.
  unfold r2, r1. rewrite (addComment_at db content_ vid uid v Hb Hf). cbn [snd].
  set (c := mkComment (next_id db) (trim (or_empty content_)) vid uid).
  assert (Hpre : forall y, In y (comments db) -> (c_id y =? next_id db) = false)
    by (intros y Hy; apply Nat.eqb_neq; auto).
  assert (Hx : (c_id c =? next_id db) = true) by apply Nat.eqb_refl.
  unfold deleteComment, requireId, Comment_findById, Like_deleteMany, bind, read, ret, throw.
  cbv beta iota zeta.
  unfold bump_id, set_comments. cbn [comments likes videos users subscriptions next_id media_log].
  rewrite (find_app_skip _ _ _ _ Hpre Hx). cbv beta iota zeta.
  replace (negb (c_owner c =? uid)) with false by (cbn; rewrite Nat.eqb_refl; reflexivity).
  cbv beta iota zeta.
  unfold set_likes. cbn [comments likes videos users subscriptions next_id media_log].
  rewrite existsb_app. cbn [existsb]. rewrite Hx, orb_true_r. cbn.
  rewrite (remove_first_app_skip _ _ _ [] Hpre Hx), app_nil_r.
  rewrite filter_all_true; [repeat split; reflexivity|].
  intros l Hin. destruct (l_comment l) as [n|] eqn:E; [|reflexivity]. cbn.
  apply negb_true_iff, Nat.eqb_neq. intros ->. exact (Hl l Hin E).
Qed.

(** [addComment] stores the trimmed content, while [updateComment] stores
    the request value as given: re-submitting the same text to the new
    comment replaces its trimmed content with the untrimmed one. *)
Theorem addComment_trims_updateComment_does_not : forall db s vid uid v,
  blank (Some s) = false ->
  find (fun v => v_id v =? vid) (videos db) = Some v ->
  (forall c, In c (comments db) -> c_id c <> next_id db) ->
  let r1 := addComment (Some s) (POid vid) (Some uid) db in
  let r2 := updateComment (Some s) (POid (next_id db)) (Some uid) (snd r1) in
  fst r1 = Ok (mkResponse 201 (mkComment (next_id db) (trim s) vid uid) "Comment added successfully") /\
  fst r2 = Ok (mkResponse 200 (mkComment (next_id db) s vid uid) "Comment updated successfully") /\
  comments (snd r2) = comments db ++ [mkComment (next_id db) s vid uid].
Proof.
  intros db s vid uid v Hb Hf Hc r1 r2.
  unfold r2, r1. rewrite (addComment_at db (Some s) vid uid v Hb Hf). cbn [fst snd or_empty].
  split; [reflexivity|].
  set (c := mkComment (next_id db) (trim s) vid uid).
  assert (Hpre : forall y, In y (comments db) -> (c_id y =? next_id db) = false)
    by (intros y Hy; apply Nat.eqb_neq; auto).
  assert (Hx : (c_id c =? next_id db) = true) by apply Nat.eqb_refl.
  unfold updateComment, requireId, Comment_findById, bind, read, ret, throw.
  rewrite Hb. cbv beta iota zeta.
  unfold bump_id, set_comments. cbn [comments].
  rewrite (find_app_skip _ _ _ _ Hpre Hx). cbv beta iota zeta.
  replace (negb (c_owner c =? uid)) with false by (cbn; rewrite Nat.eqb_refl; reflexivity).
  cbv beta iota zeta. cbn [comments].
  rewrite (find_app_skip _ _ _ _ Hpre Hx). cbn [fst snd comments or_empty].
  rewrite (update_first_split _ _ _ _ [] Hpre Hx). split; reflexivity.
Qed.

(** With valid inputs, [publishAVideo] uploads the video file and then the
    thumbnail, each exactly once and before either answer is checked, and
    never destroys media: when one upload fails, the request fails with 500,
    no video is stored, and a successful upload of the other file stays in
    the media store. When both succeed, a published video with no views,
    owned by the caller, is appended under the next id. *)
Theorem publishAVideo_outcomes : forall up title_ description_ vf th caller db,
  blank title_ = false -> blank description_ = false ->
  truthy vf = true -> truthy th = true ->
  let r := publishAVideo up title_ description_ vf th caller db in
  media_log (snd r) =
    media_log db ++ [EvUpload (or_empty vf) (up (or_empty vf));
                     EvUpload (or_empty th) (up (or_empty th))] /\
  users (snd r) = users db /\ comments (snd r) = comments db /\ likes (snd r) = likes db /\
  subscriptions (snd r) = subscriptions db /\
  (forall rv rt, up (or_empty vf) = Some rv -> up (or_empty th) = Some rt ->
     let video := mkVideo (next_id db) (url rv) (Some (public_id rv)) (url rt) (Some (public_id rt))
                          (or_empty title_) (or_empty description_) (r_duration rv) 0 true caller in
     fst r = Ok (mkResponse 200 video "Video published successfully!!") /\
     videos (snd r) = videos db ++ [video] /\ next_id (snd r) = S (next_id db)) /\
  (up (or_empty vf) = None \/ up (or_empty th) = None ->
     (exists m, fst r = Throw 500 m) /\ videos (snd r) = videos db /\ next_id (snd r) = next_id db).
Proof.
  intros up t d vf th caller db Ht Hd Hvf Hth r.
  unfold r, publishAVideo, upload, bind, ret, throw.
  rewrite Ht, Hd, Hvf, Hth. cbv beta iota zeta. cbn [orb negb].
  destruct (up (or_empty vf)) as [rv|] eqn:Ev; destruct (up (or_empty th)) as [rt|] eqn:Et;
    cbn; rewrite <- app_assoc; cbn;
    (split; [reflexivity|]); do 4 (split; [reflexivity|]);
    (split; [intros rv' rt' E1 E2; try discriminate; injection E1 as <-; injection E2 as <-;
             repeat split; reflexivity|]);
    intros Hn; try (destruct Hn; discriminate);
    (split; [eexists; reflexivity | split; reflexivity]).
Qed.

(** A missing or blank title or description, or a missing file, is
    rejected with 400 before any upload: nothing changes. *)
Theorem publishAVideo_rejects_before_upload : forall up title_ description_ vf th caller db,
  blank title_ || blank description_ || negb (truthy vf) || negb (truthy th) = true ->
  exists m, publishAVideo up title_ description_ vf th caller db = (Throw 400 m, db).
Proof.
  intros up t d vf th caller db H.
  unfold publishAVideo, throw.
  destruct (blank t || blank d); [eexists; reflexivity|].
  destruct (truthy vf); [|eexists; reflexivity].
  destruct (truthy th); [|eexists; reflexivity].
  discriminate.
Qed.

(** *** Liked videos: one entry per like *)

Lemma lookup_unwind_app' {A B} (f : list B) (m : A -> B -> bool) (xs ys : list A) :
  lookup_unwind f m (xs ++ ys) = lookup_unwind f m xs ++ lookup_unwind f m ys.
Proof. unfold lookup_unwind. apply flat_map_app. Qed.

Lemma likedVideosPipeline_per_like uid db :
  likedVideosPipeline uid db =
  flat_map (liked_of_like db)
           (filter (fun l => (likedBy l =? uid) &&
                             match l_video l with Some _ => true | None => false end)
                   (likes db)).
Proof.
  unfold likedVideosPipeline, liked_of_like.
  induction (filter _ (likes db)) as [|l ls IH]; [reflexivity|].
  cbn [flat_map]. rewrite <- IH.
  unfold lookup_unwind at 2. cbn [flat_map]. fold (lookup_unwind (videos db) (fun l v => opt_eqb (l_video l) (v_id v)) ls).
  rewrite map_app, lookup_unwind_app', map_app, map_map. cbn. rewrite map_id. reflexivity.
Qed.

Lemma liked_of_like_ids db l x lv :
  l_video l = Some x -> In lv (liked_of_like db l) -> lv_id lv = x.
Proof.
  unfold liked_of_like, lookup_unwind. intros Hl Hin.
  apply in_map_iff in Hin as [[v u] [<- Hin]]. cbn.
  apply in_flat_map in Hin as [v' [Hv' Hin]]. apply in_map_iff in Hin as [u' [[= <- <-] _]].
  apply filter_In in Hv' as [_ Hm]. rewrite Hl in Hm. cbn in Hm.
  symmetry. apply Nat.eqb_eq. exact Hm.
Qed.

Lemma likedVideosPipeline_multiplicity : forall db uid v u,
  NoDup (map v_id (videos db)) -> NoDup (map u_id (users db)) ->
  In v (videos db) -> In u (users db) -> u_id u = owner v ->
  List.length (filter (fun lv => lv_id lv =? v_id v) (likedVideosPipeline uid db)) =
  List.length (filter (fun l => (likedBy l =? uid) && opt_eqb (l_video l) (v_id v)) (likes db)).
Proof.
  intros db uid v u HVn HUn Hv Hu Hown.
  assert (Hone : liked_of_like db (mkLike 0 (Some (v_id v)) None uid) =
                 [mkLikedVideo (v_id v) (videoFile v) (thumbnail v) (title v) (description v)
                               (duration v) (views v) (isPublished v) (summarize u)]).
  { unfold liked_of_like. cbn [l_video opt_eqb].
    rewrite (filter_ext _ (fun b => v_id b =? v_id v)) by (intros b; apply Nat.eqb_sym).
    rewrite (filter_unique_key v_id _ v HVn Hv).
    unfold lookup_unwind. cbn [flat_map]. rewrite app_nil_r.
    rewrite (filter_ext _ (fun b => u_id b =? u_id u)) by (intros b; rewrite Hown; reflexivity).
    rewrite (filter_unique_key u_id _ u HUn Hu). reflexivity. }
  rewrite likedVideosPipeline_per_like.
  induction (likes db) as [|l ls IH]; [reflexivity|].
  cbn [filter]. destruct (likedBy l =? uid) eqn:Eu; cbn [andb]; [|exact IH].
  destruct (l_video l) as [x|] eqn:Ev; cbn [opt_eqb]; [|exact IH].
  cbn [flat_map]. rewrite filter_app, length_app, IH.
  destruct (x =? v_id v) eqn:Ex.
  - apply Nat.eqb_eq in Ex. subst x.
    replace (liked_of_like db l) with (liked_of_like db (mkLike 0 (Some (v_id v)) None uid))
      by (unfold liked_of_like; rewrite Ev; reflexivity).
    rewrite Hone. cbn. rewrite Nat.eqb_refl. reflexivity.
  - rewrite filter_none_false; [reflexivity|].
    intros lv Hin. rewrite (liked_of_like_ids db l x lv Ev Hin). exact Ex.
Qed.

(** Given unique video and user ids, a stored video whose owner has a user
    record appears in the caller's liked videos exactly as many times as
    the caller has likes carrying its id, comment likes included. *)
Theorem getLikedVideos_multiplicity : forall db uid v u,
  NoDup (map v_id (videos db)) -> NoDup (map u_id (users db)) ->
  In v (videos db) -> In u (users db) -> u_id u = owner v ->
  exists r, getLikedVideos (Some uid) db = (Ok r, db) /\
  List.length (filter (fun lv => lv_id lv =? v_id v) (data r)) =
  List.length (filter (fun l => (likedBy l =? uid) && opt_eqb (l_video l) (v_id v)) (likes db)).
Proof.
  intros db uid v u HVn HUn Hv Hu Hown.
  pose proof (likedVideosPipeline_multiplicity db uid v u HVn HUn Hv Hu Hown) as H.
  unfold getLikedVideos, bind, read, ret.
  destruct (List.length (likedVideosPipeline uid db) =? 0) eqn:E;
    (eexists; split; [reflexivity|]); cbn [data]; [|exact H].
  apply Nat.eqb_eq, length_zero_iff_nil in E. rewrite E in H. exact H.
Qed.

(** *** Like toggles from the unliked state *)

Lemma find_app_none {A} (p : A -> bool) (l r : list A) :
  find p l = None -> find p (l ++ r) = find p r.
Proof.
  induction l as [|a l IH]; simpl; [reflexivity|].
  destruct (p a); [discriminate | exact IH].
Qed.

Lemma like_then_unlike db (q : Like -> bool) video comment uid :
  find q (likes db) = None ->
  q (mkLike (next_id db) video comment uid) = true ->
  (forall l, In l (likes db) -> l_id l <> next_id db) ->
  let db1 := snd (Like_create video comment uid db) in
  find q (likes db1) = Some (mkLike (next_id db) video comment uid) /\
  set_likes db1 (remove_first (fun l' => l_id l' =? next_id db) (likes db1)) = bump_id db.
Proof.
  intros Hn Hq Hid db1. unfold db1, Like_create, bump_id, set_likes. cbn [snd likes].
  rewrite find_app_none by exact Hn. cbn. rewrite Hq. split; [reflexivity|].
  rewrite (remove_first_app_skip _ _ _ []), app_nil_r.
  - destruct db; reflexivity.
  - intros y Hy. apply Nat.eqb_neq. auto.
  - apply Nat.eqb_refl.
Qed.

(** Liking a comment the caller has not liked, then toggling again, answers
    true then false and gives back the database with only the id counter
    moved, provided no stored like already carries the fresh id. *)
Theorem toggleCommentLike_twice_from_unliked : forall db (cid uid : ObjectId) c,
  find (fun c => c_id c =? cid) (comments db) = Some c ->
  find (fun l => opt_eqb (l_comment l) cid && (likedBy l =? uid)) (likes db) = None ->
  (forall l, In l (likes db) -> l_id l <> next_id db) ->
  let r1 := toggleCommentLike (POid cid) (Some uid) db in
  let r2 := toggleCommentLike (POid cid) (Some uid) (snd r1) in
  fst r1 = Ok (mkResponse 200 true "comment liked successfully") /\
  fst r2 = Ok (mkResponse 200 false "comment unliked successfully") /\
  snd r2 = bump_id db.
Proof.
  intros db cid uid c Hf Hn Hid r1 r2.
  assert (Hq : opt_eqb (l_comment (mkLike (next_id db) (Some (c_video c)) (Some cid) uid)) cid
               && (likedBy (mkLike (next_id db) (Some (c_video c)) (Some cid) uid) =? uid) = true)
    by (cbn; rewrite !Nat.eqb_refl; reflexivity).
  destruct (like_then_unlike db _ (Some (c_video c)) (Some cid) uid Hn Hq Hid) as [H1 H2].
  unfold r2, r1, toggleCommentLike, requireId, Comment_findById, Like_findOne, Like_deleteOne_byId,
    bind, read, ret, modify.
  cbv beta iota zeta. rewrite Hf. cbv beta iota zeta. rewrite Hn. cbv beta iota zeta.
  unfold Like_create in H1, H2 |- *. cbv beta iota zeta in H1, H2 |- *. cbn [snd] in H1, H2.
  split; [reflexivity|].
  cbn [snd]. cbv beta iota zeta. cbn [comments bump_id set_likes]. rewrite Hf. cbv beta iota zeta.
  rewrite H1. cbv beta iota zeta. cbn [l_id]. rewrite H2. split; reflexivity.
Qed.

(** Liking a video for which the caller has no like carrying its id, then
    toggling again, answers true then false and gives back the database
    with only the id counter moved, provided no stored like already carries
    the fresh id. *)
Theorem toggleVideoLike_twice_from_unliked : forall db (vid uid : ObjectId) v,
  find (fun v => v_id v =? vid) (videos db) = Some v ->
  find (fun l => opt_eqb (l_video l) vid && (likedBy l =? uid)) (likes db) = None ->
  (forall l, In l (likes db) -> l_id l <> next_id db) ->
  let r1 := toggleVideoLike (POid vid) (Some uid) db in
  let r2 := toggleVideoLike (POid vid) (Some uid) (snd r1) in
  fst r1 = Ok (mkResponse 200 true "Video liked successfully") /\
  fst r2 = Ok (mkResponse 200 false "Video unliked successfully") /\
  snd r2 = bump_id db.
Proof.
  intros db vid uid v Hf Hn Hid r1 r2.
  assert (Hq : opt_eqb (l_video (mkLike (next_id db) (Some vid) None uid)) vid
               && (likedBy (mkLike (next_id db) (Some vid) None uid) =? uid) = true)
    by (cbn; rewrite !Nat.eqb_refl; reflexivity).
  destruct (like_then_unlike db _ (Some vid) None uid Hn Hq Hid) as [H1 H2].
  unfold r2, r1, toggleVideoLike, requireId, Video_findById, Like_findOne, Like_deleteOne_byId,
    bind, read, ret, modify.
  cbv beta iota zeta. rewrite Hf. cbv beta iota zeta. rewrite Hn. cbv beta iota zeta.
  unfold Like_create in H1, H2 |- *. cbv beta iota zeta in H1, H2 |- *. cbn [snd] in H1, H2.
  split; [reflexivity|].
  cbn [snd]. cbv beta iota zeta. cbn [videos bump_id set_likes]. rewrite Hf. cbv beta iota zeta.
  rewrite H1. cbv beta iota zeta. cbn [l_id]. rewrite H2. split; reflexivity.
Qed.

(** A successful [deleteComment] removes the likes that carry the comment's
    id and no other like, removes one comment, and touches neither videos
    nor users; when comment ids are unique, no comment with that id is
    left. *)
Theorem deleteComment_success : forall db cid uid r,
  fst (deleteComment (POid cid) (Some uid) db) = Ok r ->
  let db' := snd (deleteComment (POid cid) (Some uid) db) in
  (exists c, In c (comments db) /\ c_id c = cid /\ c_owner c = uid) /\
  (forall l, In l (likes db') <-> In l (likes db) /\ l_comment l <> Some cid) /\
  S (List.length (comments db')) = List.length (comments db) /\
  (NoDup (map c_id (comments db)) -> forall c, In c (comments db') -> c_id c <> cid) /\
  videos db' = videos db /\ users db' = users db /\ subscriptions db' = subscriptions db.
Proof.
  intros db cid uid r.
  unfold deleteComment, requireId, Comment_findById, Like_deleteMany, bind, read, ret, throw.
  cbv beta iota zeta.
  destruct (find (fun c => c_id c =? cid) (comments db)) as [c|] eqn:Hf; [|discriminate].
  cbv beta iota zeta.
  destruct (negb (c_owner c =? uid)) eqn:Ho; [discriminate|].
  apply negb_false_iff, Nat.eqb_eq in Ho.
  cbv beta iota zeta. unfold set_likes, set_comments. cbn [comments likes videos users subscriptions].
  apply find_some in Hf as [Hc Hx]. apply Nat.eqb_eq in Hx.
  assert (He : existsb (fun c' => c_id c' =? cid) (comments db) = true)
    by (apply existsb_exists; exists c; split; [exact Hc | apply Nat.eqb_eq; exact Hx]).
  rewrite He. cbn. intros _.
  split; [exists c; auto|].
  split.
  { intros l. rewrite filter_In. destruct (l_comment l) as [n|]; cbn.
    - rewrite negb_true_iff, Nat.eqb_neq. split; intros [H1 H2]; split; auto; congruence.
    - split; intros [H1 H2]; split; auto; discriminate. }
  split; [symmetry; apply remove_first_length; exact He|].
  split; [|repeat split].
  intros Hnd c' Hin. apply (remove_first_key_gone c_id (comments db) cid c' Hnd); [|exact Hin].
  rewrite <- Hx. apply in_map. exact Hc.
Qed.

(** ** Witnesses of the further properties *)

Lemma NoDup_users_db0 : NoDup (map u_id (users db0)).
Proof. cbn. constructor; [intros [H|[]]; discriminate | constructor; [intros [] | constructor]]. Qed.

(** The first page of all videos of [db_two_videos] holds at most 10 entries. *)
Lemma getAllVideos_sound_witness :
  exists r, fst (getAllVideos regex_exact sort_none None None None None None PMissing db_two_videos) = Ok r /\
            snd (getAllVideos regex_exact sort_none None None None None None PMissing db_two_videos) = db_two_videos /\
            List.length (data r) <= 10.
Proof.
  assert (Hs : forall k a l v, In v (sort_none k a l) -> In v l) by (intros k a l v H; exact H).
  destruct (fst (getAllVideos regex_exact sort_none None None None None None PMissing db_two_videos))
    as [r|c m] eqn:E; [|vm_compute in E; discriminate].
  exists r. split; [reflexivity|].
  destruct (getAllVideos_sound regex_exact sort_none None None None None None PMissing db_two_videos r
              Hs NoDup_users_db0 E) as [H1 [H2 _]].
  split; [exact H1 | exact H2].
Defined.

(** Searching for the title "cats" lists video 10 on the first page. *)
Lemma getAllVideos_lists_every_match_witness :
  exists r e,
    fst (getAllVideos regex_exact sort_none None None (Some "cats") None None PMissing db_two_videos) = Ok r /\
    In e (data r) /\ vl_id e = v_id vid10 /\ vl_views e = views vid10 /\
    ((forall u, In u (users db_two_videos) -> u_id u <> owner vid10) -> vl_owner e = None).
Proof.
  apply (getAllVideos_lists_every_match regex_exact sort_none None (Some "cats") None None PMissing
           db_two_videos vid10).
  - intros k a l. apply Permutation_refl.
  - left. reflexivity.
  - left. reflexivity.
  - intros _. eexists. split; reflexivity.
  - cbn. lia.
  - cbn. lia.
Defined.

(** Bob subscribes to Alice in [db0]: Alice is listed among his channels. *)
Lemma subscribe_then_listed_witness :
  exists r1, fst (getSubscribedChannels (POid 2) (snd (toggleSubscription (Some (oid_toString 1)) (Some 2) db0))) = Ok r1 /\
             In (project channelProjection alice) (data r1).
Proof.
  destruct (fst (toggleSubscription (Some (oid_toString 1)) (Some 2) db0)) as [r|c m] eqn:E;
    [|vm_compute in E; discriminate].
  assert (Hd : fst (data r) = true)
    by (vm_compute in E; injection E as <-; reflexivity).
  exact (proj1 (subscribe_then_listed db0 2 1 (oid_toString 1) alice r
                  ltac:(vm_compute; reflexivity) (or_introl eq_refl) eq_refl E Hd)).
Defined.

(** Bob subscribes to Alice and unsubscribes: no subscription is left. *)
Lemma toggleSubscription_twice_witness :
  subscriptions (snd (toggleSubscription (Some (oid_toString 1)) (Some 2)
                        (snd (toggleSubscription (Some (oid_toString 1)) (Some 2) db0)))) = subscriptions db0.
Proof.
  refine (proj2 (proj2 (proj2 (toggleSubscription_twice db0 2 1 (oid_toString 1) _ _ _ _ _ _))) eq_refl).
  - vm_compute. reflexivity.
  - vm_compute. discriminate.
  - exists alice. split; [left; reflexivity | reflexivity].
  - cbn. lia.
  - constructor.
  - intros s [].
Defined.

(** Video 10 of [db0], whose owner Alice exists, is stored with 6 views. *)
Lemma getVideoById_views_witness :
  (exists u, In u (users db0) /\ u_id u = owner vid10) /\
  find (fun v' => v_id v' =? 10) (videos (snd (getVideoById (POid 10) db0)))
  = Some (set_views (views vid10 + 1) vid10).
Proof.
  assert (Hu : exists u, In u (users db0) /\ u_id u = owner vid10)
    by (exists alice; split; [left; reflexivity | reflexivity]).
  split; [exact Hu |].
  exact (proj1 (proj2 (getVideoById_views db0 (POid 10) Hu))).
Defined.

(** Bob may not delete Alice's video 10. *)
Lemma video_mutations_owner_only_witness :
  deleteVideo (POid 10) (Some 2) db0 = (Throw 403 "You are not authorized to delete this video", db0).
Proof.
  exact (proj1 (video_mutations_owner_only db0 10 vid10 (Some 2) eq_refl eq_refl)).
Defined.

(** Alice may not edit Bob's comment 20. *)
Lemma comment_mutations_owner_only_witness :
  updateComment (Some "hi") (POid 20) (Some 1) db0 =
    (Throw 403 "You are not authorized to update this comment", db0).
Proof.
  refine (proj1 (comment_mutations_owner_only db0 20 com20 1 (Some "hi") eq_refl _ eq_refl)).
  discriminate.
Defined.

(** Alice retitles video 10 of [db0]: it keeps its views. *)
Lemma updateVideo_success_witness :
  exists r, fst (updateVideo up_video_only (POid 10) (Some "dogs") None None None (Some 1) db0) = Ok r /\
            views (data r) = views vid10 /\ title (data r) = "dogs".
Proof.
  destruct (fst (updateVideo up_video_only (POid 10) (Some "dogs") None None None (Some 1) db0))
    as [r|c m] eqn:E; [|vm_compute in E; discriminate].
  exists r. split; [reflexivity|].
  destruct (updateVideo_success up_video_only db0 10 (Some "dogs") None None None (Some 1) r E)
    as (pre & v & post & Hl & Hv & _ & _ & _ & _ & _ & _ & _ & _ & _ & Hviews & _ & _ & Ht & _).
  assert (Hvv : v = vid10).
  { cbn in Hl. destruct pre as [|y pre]; cbn in Hl.
    - injection Hl as <-. reflexivity.
    - injection Hl as _ Hl. destruct pre; discriminate. }
  subst v. split; [exact Hviews | exact Ht].
Defined.

(** Alice comments on video 10 of [db0] and deletes the comment. *)
Lemma addComment_then_deleteComment_witness :
  comments (snd (deleteComment (POid 100) (Some 1)
                  (snd (addComment (Some "hi") (POid 10) (Some 1) db0)))) = comments db0.
Proof.
  refine (proj1 (proj2 (addComment_then_deleteComment db0 (Some "hi") 10 1 vid10 eq_refl eq_refl _ _))).
  - intros c [<- | [<- | []]]; discriminate.
  - intros l [].
Defined.

(** " hi " is stored as "hi" by [addComment] and as " hi " by [updateComment]. *)
Lemma addComment_trims_updateComment_does_not_witness :
  comments (snd (updateComment (Some " hi ") (POid 100) (Some 1)
                  (snd (addComment (Some " hi ") (POid 10) (Some 1) db0))))
  = comments db0 ++ [mkComment 100 " hi " 10 1].
Proof.
  refine (proj2 (proj2 (addComment_trims_updateComment_does_not db0 " hi " 10 1 vid10 eq_refl eq_refl _))).
  intros c [<- | [<- | []]]; discriminate.
Defined.

(** With a media store that rejects the thumbnail, the video file uploaded
    first is left in the store and the request fails. *)
Lemma publishAVideo_outcomes_witness :
  media_log (snd (publishAVideo up_video_only (Some "t") (Some "d") (Some "new.mp4") (Some "new.png") 1 db0))
  = [EvUpload "new.mp4" (up_video_only "new.mp4"); EvUpload "new.png" None] /\
  exists m, fst (publishAVideo up_video_only (Some "t") (Some "d") (Some "new.mp4") (Some "new.png") 1 db0)
            = Throw 500 m.
Proof.
  destruct (publishAVideo_outcomes up_video_only (Some "t") (Some "d") (Some "new.mp4") (Some "new.png") 1 db0
              eq_refl eq_refl eq_refl eq_refl) as (Hlog & _ & _ & _ & _ & _ & Hfail).
  split; [exact Hlog|].
  exact (proj1 (Hfail (or_intror eq_refl))).
Defined.

(** A missing title is rejected before any upload. *)
Lemma publishAVideo_rejects_before_upload_witness :
  exists m, publishAVideo up_video_only None (Some "d") (Some "new.mp4") (Some "new.png") 1 db0
            = (Throw 400 m, db0).
Proof.
  exact (publishAVideo_rejects_before_upload up_video_only None (Some "d") (Some "new.mp4")
           (Some "new.png") 1 db0 eq_refl).
Defined.

(** Bob liked video 10 and its comment 20: the video is listed twice. *)
Lemma getLikedVideos_multiplicity_witness :
  exists r, getLikedVideos (Some 2) db_video_and_comment_liked = (Ok r, db_video_and_comment_liked) /\
  List.length (filter (fun lv => lv_id lv =? 10) (data r)) =
  List.length (filter (fun l => (likedBy l =? 2) && opt_eqb (l_video l) 10) (likes db_video_and_comment_liked)).
Proof.
  apply (getLikedVideos_multiplicity db_video_and_comment_liked 2 vid10 alice).
  - vm_compute. constructor; [intros [] | constructor].
  - vm_compute. constructor; [intros [H|[]]; discriminate | constructor; [intros [] | constructor]].
  - vm_compute. left. reflexivity.
  - vm_compute. left. reflexivity.
  - reflexivity.
Defined.

(** Bob likes and unlikes comment 20 of [db0]. *)
Lemma toggleCommentLike_twice_from_unliked_witness :
  snd (toggleCommentLike (POid 20) (Some 2) (snd (toggleCommentLike (POid 20) (Some 2) db0))) = bump_id db0.
Proof.
  refine (proj2 (proj2 (toggleCommentLike_twice_from_unliked db0 20 2 com20 eq_refl eq_refl _))).
  intros l [].
Defined.

(** Bob likes and unlikes video 10 of [db0]. *)
Lemma toggleVideoLike_twice_from_unliked_witness :
  snd (toggleVideoLike (POid 10) (Some 2) (snd (toggleVideoLike (POid 10) (Some 2) db0))) = bump_id db0.
Proof.
  refine (proj2 (proj2 (toggleVideoLike_twice_from_unliked db0 10 2 vid10 eq_refl eq_refl _))).
  intros l [].
Defined.

(** Bob deletes his comment 20 of [db0]: one comment is left. *)
Lemma deleteComment_success_witness :
  exists r, fst (deleteComment (POid 20) (Some 2) db0) = Ok r /\
            S (List.length (comments (snd (deleteComment (POid 20) (Some 2) db0)))) = List.length (comments db0).
Proof.
  destruct (fst (deleteComment (POid 20) (Some 2) db0)) as [r|c m] eqn:E; [|vm_compute in E; discriminate].
  exists r. split; [reflexivity|].
  exact (proj1 (proj2 (proj2 (deleteComment_success db0 20 2 r E)))).
Defined.
